(** * notion-gitlab-sync: the reconciliation engine, embedded and verified

  The two source files are [gitlab.js] (the GitLab client and the field
  mapper [getPropertiesFromIssue]) and the entry script (the Notion
  client calls, the identity map, the reconciler, the batched writer and
  the tag-option sync).  Every definition below is a transcription of the
  JavaScript function of the same name.  Network calls are answered by a
  [World]; what the script does to the outside (requests, console lines)
  is recorded in a trace. *)

From Stdlib Require Import NArith Ascii DecimalString DecimalN Sorted Permutation.
From stdpp Require Import gmap strings list fin_maps.

Local Open Scope string_scope.
Local Open Scope list_scope.

(** ** JavaScript primitives used by the script *)

Module JS.

(** [String(n)] / the property key of a number, for a non-negative
    integer below 10^21 (where JavaScript prints plain decimal digits). *)
Definition Number_toString (n : N) : string :=
  NilEmpty.string_of_uint (N.to_uint n).

(** The integer denoted by a string of decimal digits; [None] on any
    other character.  The script itself never converts the text back:
    JavaScript does it implicitly when a number is used as a key. *)
Definition decimalValue (s : string) : option N :=
  N.of_uint <$> NilEmpty.uint_of_string s.

(** [s.slice(start)] for a non-negative [start]. *)
Fixpoint String_slice (start : nat) (s : string) : string :=
  match start, s with
  | O, _ => s
  | S k, EmptyString => EmptyString
  | S k, String _ t => String_slice k t
  end.

(** [arr.join(sep)] on an array of strings. *)
Fixpoint Array_join (sep : string) (l : list string) : string :=
  match l with
  | [] => ""
  | [x] => x
  | x :: rest => x +:+ sep +:+ Array_join sep rest
  end.

(** Truthiness of a value that is either [undefined] or a string. *)
Definition truthy (v : option string) : bool :=
  match v with
  | None => false
  | Some EmptyString => false
  | Some (String _ _) => true
  end.

(** [obj[key] = value] on an object created by [{}], for a string
    value.  The key [__proto__] reaches the accessor inherited from
    [Object.prototype], which ignores a string: no own property is made. *)
Definition obj_set (key value : string) (obj : gmap string string)
  : gmap string string :=
  if decide (key = "__proto__") then obj else <[key := value]> obj.

(** lodash [_.chunk(array, size)]: groups of [size] elements, the last
    one holding what remains; no group at all when [size < 1]. *)
Fixpoint chunk_loop {A} (steps size : nat) (array : list A) : list (list A) :=
  match steps, array with
  | O, _ => []
  | _, [] => []
  | S k, _ => take size array :: chunk_loop k size (drop size array)
  end.

Definition chunk {A} (array : list A) (size : nat) : list (list A) :=
  if decide (size < 1) then [] else chunk_loop (length array) size array.

End JS.

(** ** gitlab.js: data and the field mapper *)

Module GitLab.

Record GitLabUser := { user_name : string }.

Record GitLabIssue := {
  iid : N;
  title : string;
  description : option string;
  state : string;
  assignees : list GitLabUser;
  labels : list string;
  updated_at : string;
  web_url : string
}.

Record GitLabLabel := { label_name : string }.

(** One element of a Notion [rich_text] array, with the fields the
    script writes or reads. *)
Record RichText := {
  content : option string;
  link : option string;
  plain_text : option string;
  href : option string
}.

Record SelectOption := { option_name : string; option_color : option string }.

Record Properties := {
  p_id : list RichText;
  p_open : bool;
  p_title : string;
  p_notes : list RichText;
  p_assignees : list RichText;
  p_last_updated_at : string;
  p_type_of_work : list string;
  p_tags : list string
}.

#[global] Instance GitLabUser_eq_dec : EqDecision GitLabUser.
Proof. solve_decision. Defined.
#[global] Instance GitLabIssue_eq_dec : EqDecision GitLabIssue.
Proof. solve_decision. Defined.
#[global] Instance RichText_eq_dec : EqDecision RichText.
Proof. solve_decision. Defined.
#[global] Instance SelectOption_eq_dec : EqDecision SelectOption.
Proof. solve_decision. Defined.
#[global] Instance Properties_eq_dec : EqDecision Properties.
Proof. solve_decision. Defined.

(** [issue.assignees.some(assignee => assignee.name === "Jan Strich")] *)
Definition assignedToJan (issue : GitLabIssue) : bool :=
  existsb (fun assignee => bool_decide (user_name assignee = "Jan Strich"))
          (assignees issue).

Definition getPropertiesFromIssue (issue : GitLabIssue) : Properties :=
  {| p_id :=
       [ {| content := Some ("#" +:+ JS.Number_toString (iid issue));
            link := Some (web_url issue);
            plain_text := Some ("#" +:+ JS.Number_toString (iid issue));
            href := Some (web_url issue) |} ];
     p_open := bool_decide (state issue = "opened");
     p_title := "G4KMU: " +:+ title issue;
     p_notes :=
       [ {| content := description issue; link := None;
            plain_text := None; href := None |} ];
     p_assignees :=
       [ {| content :=
              Some (JS.Array_join ", " (map user_name (assignees issue)));
            link := None; plain_text := None; href := None |} ];
     p_last_updated_at := updated_at issue;
     p_type_of_work := ["Programming"];
     p_tags := labels issue |}.

End GitLab.

(** ** The outside world and the script's effects *)

Module Effects.
Import GitLab.

(** A promise handed back by a client call settles one way or the other. *)
Inductive response (A : Type) : Type :=
| Resolves (a : A)
| Rejects.
Arguments Resolves {A} a.
Arguments Rejects {A}.

(** A page of the Notion database: its handle and its [id] property, when
    the page has one.  [rich_text] is absent when the property is of
    another type. *)
Record IdProperty := { property_id : string; rich_text : option (list RichText) }.
Record NotionPage := { page_id : string; properties_id : option IdProperty }.
Record QueryResponse := { results : list NotionPage; next_cursor : option string }.

(** The answers of the two services, each as a function of the request.
    [gitlab_issues page] is the parsed JSON array of the page; [Rejects]
    stands for a failed fetch or a body that is not JSON.  For a page
    write, the answer is how the promise of that request settles. *)
Record World := {
  databases_retrieve : response unit;
  databases_query : option string -> response QueryResponse;
  gitlab_issues : nat -> response (list GitLabIssue);
  gitlab_labels : response (list GitLabLabel);
  databases_update : list SelectOption -> response unit;
  pages_create : Properties -> response unit;
  pages_update : string -> Properties -> response unit
}.

(** What the script does to the outside, in the order it does it. *)
Inductive event : Type :=
| NotionDatabasesRetrieve
| NotionDatabasesQuery (start_cursor : option string)
| GitLabIssuesRequest (page per_page : nat)
| GitLabLabelsRequest
| NotionDatabasesUpdate (options : list SelectOption)
| NotionPagesCreate (properties : Properties)
| NotionPagesUpdate (pageId : string) (properties : Properties)
| ConsoleLog (line : string).

#[global] Instance event_eq_dec : EqDecision event.
Proof. solve_decision. Defined.

(** How an async function ends: it returns, it throws (its promise
    rejects), or the model's loop budget ran out first. *)
Inductive outcome (A : Type) : Type :=
| Returned (a : A)
| Thrown
| OutOfFuel.
Arguments Returned {A} a.
Arguments Thrown {A}.
Arguments OutOfFuel {A}.

(** The global [gitLabIssuesIdToNotionPageId] is the state. *)
Record Result (A : Type) := {
  out : outcome A;
  idMap : gmap string string;
  emitted : list event
}.
Arguments out {A} _.
Arguments idMap {A} _.
Arguments emitted {A} _.

Definition M (A : Type) : Type := gmap string string -> Result A.

Definition ret {A} (a : A) : M A :=
  fun m => {| out := Returned a; idMap := m; emitted := [] |}.

Definition bind {A B} (c : M A) (k : A -> M B) : M B :=
  fun m =>
    let r := c m in
    match out r with
    | Returned a =>
        let r' := k a (idMap r) in
        {| out := out r'; idMap := idMap r'; emitted := emitted r ++ emitted r' |}
    | Thrown => {| out := Thrown; idMap := idMap r; emitted := emitted r |}
    | OutOfFuel => {| out := OutOfFuel; idMap := idMap r; emitted := emitted r |}
    end.

Definition throw {A} : M A :=
  fun m => {| out := Thrown; idMap := m; emitted := [] |}.

Definition outOfFuel {A} : M A :=
  fun m => {| out := OutOfFuel; idMap := m; emitted := [] |}.

Definition emit (e : event) : M unit :=
  fun m => {| out := Returned tt; idMap := m; emitted := [e] |}.

(** [await p] *)
Definition await {A} (p : response A) : M A :=
  match p with
  | Resolves a => ret a
  | Rejects => throw
  end.

Definition readIdMap : M (gmap string string) :=
  fun m => {| out := Returned m; idMap := m; emitted := [] |}.

Definition writeIdMap (m' : gmap string string) : M unit :=
  fun _ => {| out := Returned tt; idMap := m'; emitted := [] |}.

Definition console_log (line : string) : M unit := emit (ConsoleLog line).

Declare Scope js_scope.
Delimit Scope js_scope with js.
Notation "x <- c ;; k" := (bind c (fun x => k))
  (at level 100, c at next level, right associativity) : js_scope.
Notation "c ;;; k" := (bind c (fun _ => k))
  (at level 100, right associativity) : js_scope.

(** The run of a computation from the empty map. *)
Definition run {A} (c : M A) : Result A := c ∅.

End Effects.

(** ** gitlab.js: the paginated issue listing *)

Module GitLabClient.
Import GitLab Effects.
Local Open Scope js_scope.

Definition pageSize : nat := 100.

(** The body of the [do ... while (lastPageSize == pageSize)] loop; one
    unit of [fuel] per iteration. *)
Fixpoint issuesLoop (fuel : nat) (w : World)
    (issues : list GitLabIssue) (page : nat) : M (list GitLabIssue) :=
  match fuel with
  | O => outOfFuel
  | S fuel' =>
      emit (GitLabIssuesRequest page pageSize) ;;;
      data <- await (gitlab_issues w page) ;;
      let filteredData := List.filter assignedToJan data in
      let issues := issues ++ filteredData in
      let lastPageSize := length data in
      let page := page + 1 in
      if decide (lastPageSize = pageSize)
      then issuesLoop fuel' w issues page
      else ret issues
  end.

Definition getGitLabIssuesForRepository (fuel : nat) (w : World)
  : M (list GitLabIssue) :=
  issuesLoop fuel w [] 1.

Definition getGitLabLabelsForProject (w : World) : M (list GitLabLabel) :=
  emit GitLabLabelsRequest ;;;
  await (gitlab_labels w).

End GitLabClient.

(** ** The entry script *)

Module Sync.
Import GitLab Effects GitLabClient.
Local Open Scope js_scope.

Definition OPERATION_BATCH_SIZE : nat := 10.

Definition nl : string := String "010"%char "".

Definition count {A} (l : list A) : string :=
  JS.Number_toString (N.of_nat (length l)).

(** *** getIssuesFromNotionDatabase *)

Record NotionIssue := { pageId : string; issueNumber : string }.

#[global] Instance NotionIssue_eq_dec : EqDecision NotionIssue.
Proof. solve_decision. Defined.

(** The [while (true)] loop over the cursor. *)
Fixpoint queryLoop (fuel : nat) (w : World)
    (pages : list NotionPage) (cursor : option string) : M (list NotionPage) :=
  match fuel with
  | O => outOfFuel
  | S fuel' =>
      emit (NotionDatabasesQuery cursor) ;;;
      r <- await (databases_query w cursor) ;;
      let pages := pages ++ results r in
      if negb (JS.truthy (next_cursor r))
      then ret pages
      else queryLoop fuel' w pages (next_cursor r)
  end.

(** [page.properties.id.rich_text[0].plain_text.slice(1)]: [None] when
    the evaluation throws a TypeError (no [rich_text], no first segment,
    no [plain_text]). *)
Definition readIssueNumber (prop : IdProperty) : option string :=
  match rich_text prop with
  | Some (segment :: _) =>
      match plain_text segment with
      | Some text => Some (JS.String_slice 1 text)
      | None => None
      end
  | _ => None
  end.

(** The [for (const page of pages)] loop.  [page.properties["id"].id] is
    read before the [try]: on a page without the property it throws out
    of the function. *)
Fixpoint collectIssues (pages : list NotionPage) (issues : list NotionIssue)
  : M (list NotionIssue) :=
  match pages with
  | [] => ret issues
  | page :: rest =>
      match properties_id page with
      | None => throw
      | Some prop =>
          match readIssueNumber prop with
          | Some number =>
              collectIssues rest
                (issues ++ [ {| pageId := page_id page; issueNumber := number |} ])
          | None =>
              console_log "oops" ;;;
              collectIssues rest issues
          end
      end
  end.

Definition getIssuesFromNotionDatabase (fuel : nat) (w : World)
  : M (list NotionIssue) :=
  emit NotionDatabasesRetrieve ;;;
  await (databases_retrieve w) ;;;
  pages <- queryLoop fuel w [] None ;;
  console_log (count pages +:+ " issues successfully fetched from Notion.") ;;;
  collectIssues pages [].

(** *** setInitialGitLabToNotionIdMap *)

(** The [for ... of currentIssues] loop of assignments into the map. *)
Definition storeIssues (currentIssues : list NotionIssue)
    (m : gmap string string) : gmap string string :=
  foldl (fun m issue => JS.obj_set (issueNumber issue) (pageId issue) m)
        m currentIssues.

Definition setInitialGitLabToNotionIdMap (fuel : nat) (w : World) : M unit :=
  currentIssues <- getIssuesFromNotionDatabase fuel w ;;
  m <- readIdMap ;;
  writeIdMap (storeIssues currentIssues m).

(** *** getNotionOperations *)

(** [{ ...issue, pageId }] *)
Record PageToUpdate := { u_issue : GitLabIssue; u_pageId : string }.

Record Operations := {
  pagesToCreate : list GitLabIssue;
  pagesToUpdate : list PageToUpdate
}.

(** [gitLabIssuesIdToNotionPageId[issue.iid]]: the number is turned into
    its property key. *)
Definition lookupPageId (m : gmap string string) (issue : GitLabIssue)
  : option string :=
  m !! JS.Number_toString (iid issue).

Definition classify (m : gmap string string) (ops : Operations)
    (issue : GitLabIssue) : Operations :=
  match lookupPageId m issue with
  | Some pageId =>
      if JS.truthy (Some pageId)
      then {| pagesToCreate := pagesToCreate ops;
              pagesToUpdate := pagesToUpdate ops
                                 ++ [ {| u_issue := issue; u_pageId := pageId |} ] |}
      else {| pagesToCreate := pagesToCreate ops ++ [issue];
              pagesToUpdate := pagesToUpdate ops |}
  | None =>
      {| pagesToCreate := pagesToCreate ops ++ [issue];
         pagesToUpdate := pagesToUpdate ops |}
  end.

Definition getNotionOperations (m : gmap string string)
    (issues : list GitLabIssue) : Operations :=
  foldl (classify m) {| pagesToCreate := []; pagesToUpdate := [] |} issues.

(** *** createPages and updatePages *)

(** [batch.map(x => client call)]: every call of the batch is made, in
    order, and hands back its promise.  The calls then run side by side;
    the order in which they settle is not part of the model. *)
Fixpoint startAll {A} (request : A -> event) (answer : A -> response unit)
    (batch : list A) : M (list (response unit)) :=
  match batch with
  | [] => ret []
  | x :: rest =>
      emit (request x) ;;;
      promises <- startAll request answer rest ;;
      ret (answer x :: promises)
  end.

Definition resolved (p : response unit) : bool :=
  match p with Resolves _ => true | Rejects => false end.

(** [await Promise.all(promises)]: rejects as soon as one of them does. *)
Definition awaitAll (promises : list (response unit)) : M unit :=
  if forallb resolved promises then ret tt else throw.

(** [for (const batch of chunks) { await Promise.all(...); console.log(...) }] *)
Fixpoint processBatches {A} (request : A -> event) (answer : A -> response unit)
    (chunks : list (list A)) : M unit :=
  match chunks with
  | [] => ret tt
  | batch :: rest =>
      promises <- startAll request answer batch ;;
      awaitAll promises ;;;
      console_log ("Completed batch size: " +:+ count batch) ;;;
      processBatches request answer rest
  end.

Definition createRequest (issue : GitLabIssue) : event :=
  NotionPagesCreate (getPropertiesFromIssue issue).

Definition createAnswer (w : World) (issue : GitLabIssue) : response unit :=
  pages_create w (getPropertiesFromIssue issue).

Definition createPages (w : World) (pagesToCreate : list GitLabIssue) : M unit :=
  let pagesToCreateChunks := JS.chunk pagesToCreate OPERATION_BATCH_SIZE in
  processBatches createRequest (createAnswer w) pagesToCreateChunks.

Definition updateRequest (page : PageToUpdate) : event :=
  NotionPagesUpdate (u_pageId page) (getPropertiesFromIssue (u_issue page)).

Definition updateAnswer (w : World) (page : PageToUpdate) : response unit :=
  pages_update w (u_pageId page) (getPropertiesFromIssue (u_issue page)).

Definition updatePages (w : World) (pagesToUpdate : list PageToUpdate) : M unit :=
  let pagesToUpdateChunks := JS.chunk pagesToUpdate OPERATION_BATCH_SIZE in
  processBatches updateRequest (updateAnswer w) pagesToUpdateChunks.

(** *** updateMultiSelectOptions *)

Definition availableColors : list string :=
  [ "blue"; "brown"; "default"; "gray"; "green";
    "orange"; "pink"; "purple"; "red"; "yellow" ].

(** [labels.map((l, i) => ({ name: l.name, color: palette[i % palette.length] }))] *)
Definition multiSelectOptions (palette : list string)
    (labels : list GitLabLabel) : list SelectOption :=
  imap (fun i l => {| option_name := label_name l;
                      option_color := palette !! (i mod length palette) |})
       labels.

Definition updateMultiSelectOptions (w : World) (labels : list GitLabLabel)
  : M unit :=
  let options := multiSelectOptions availableColors labels in
  emit (NotionDatabasesUpdate options) ;;;
  await (databases_update w options).

(** *** syncNotionDatabaseWithGitLab and the start of the script *)

Definition syncNotionDatabaseWithGitLab (fuel : nat) (w : World) : M unit :=
  console_log (nl +:+ "Fetching issues from GitLab repository...") ;;;
  issues <- getGitLabIssuesForRepository fuel w ;;
  console_log ("Fetched " +:+ count issues +:+ " issues from GitLab repository.") ;;;
  labels <- getGitLabLabelsForProject w ;;
  console_log ("Fetched " +:+ count labels +:+ " lables from GitLab project.") ;;;
  updateMultiSelectOptions w labels ;;;
  m <- readIdMap ;;
  let ops := getNotionOperations m issues in
  console_log (nl +:+ count (pagesToCreate ops) +:+ " new issues to add to Notion.") ;;;
  createPages w (pagesToCreate ops) ;;;
  console_log (nl +:+ count (pagesToUpdate ops) +:+ " issues to update in Notion.") ;;;
  updatePages w (pagesToUpdate ops) ;;;
  console_log (nl +:+ "✅ Notion database is synced with GitLab.").

(** [setInitialGitLabToNotionIdMap().then(syncNotionDatabaseWithGitLab)] *)
Definition main (fuel : nat) (w : World) : M unit :=
  setInitialGitLabToNotionIdMap fuel w ;;;
  syncNotionDatabaseWithGitLab fuel w.

End Sync.

(** * Vocabulary of the statements, and sample inputs *)

Module Vocabulary.
Import GitLab Effects GitLabClient Sync.

(** A result with some events put in front of what it emitted. *)
Definition after {A} (pre : list event) (r : Result A) : Result A :=
  {| out := out r; idMap := idMap r; emitted := pre ++ emitted r |}.

(** A computation that leaves the identity map as it found it. *)
Definition readonly {A} (c : M A) : Prop := forall m, idMap (c m) = m.

(** What the assignee filter keeps of [n] consecutive response pages
    starting at [page]. *)
Definition kept (pages : nat -> list GitLabIssue) (page n : nat)
  : list GitLabIssue :=
  concat (map (fun p => List.filter assignedToJan (pages p)) (seq page n)).

(** The requests for [n] consecutive pages starting at [page]. *)
Definition pageRequests (page n : nat) : list event :=
  map (fun p => GitLabIssuesRequest p pageSize) (seq page n).

(** The record the Destination Lister makes of a page, if any. *)
Definition entryOf (page : NotionPage) : option NotionIssue :=
  match properties_id page with
  | Some prop =>
      match readIssueNumber prop with
      | Some number => Some {| pageId := page_id page; issueNumber := number |}
      | None => None
      end
  | None => None
  end.

(** The console line the Destination Lister prints for a page, if any. *)
Definition oopsOf (page : NotionPage) : list event :=
  match entryOf page with
  | Some _ => []
  | None => [ConsoleLog "oops"]
  end.

(** Whether the reconciler finds a usable handle for the issue. *)
Definition existing (m : gmap string string) (issue : GitLabIssue) : bool :=
  JS.truthy (lookupPageId m issue).

(** The update the reconciler makes of an issue, if it makes one. *)
Definition updateOf (m : gmap string string) (issue : GitLabIssue)
  : option PageToUpdate :=
  match lookupPageId m issue with
  | Some handle =>
      if JS.truthy (Some handle)
      then Some {| u_issue := issue; u_pageId := handle |}
      else None
  | None => None
  end.

(** What the writer does for one batch that goes through: the batch's
    requests in order, then the console line. *)
Definition batchEvents {A} (request : A -> event) (batch : list A) : list event :=
  map request batch ++ [ConsoleLog ("Completed batch size: " +:+ count batch)].

(** The behaviour shared by [createPages] and [updatePages]. *)
Definition batchedWriter {A} (writer : list A -> M unit)
    (request : A -> event) (answer : A -> response unit) : Prop :=
  forall (work : list A) (m : gmap string string),
    let batches := JS.chunk work OPERATION_BATCH_SIZE in
    concat batches = work /\
    (forall i,
        batches !! i =
        if decide (i * 10 < length work)
        then Some (take 10 (drop (i * 10) work))
        else None) /\
    (forallb (fun x => resolved (answer x)) work = true ->
     writer work m =
     {| out := Returned tt; idMap := m;
        emitted := concat (map (batchEvents request) batches) |}) /\
    (forall pre batch post,
        batches = pre ++ batch :: post ->
        forallb (fun x => resolved (answer x)) (concat pre) = true ->
        forallb (fun x => resolved (answer x)) batch = false ->
        writer work m =
        {| out := Thrown; idMap := m;
           emitted := concat (map (batchEvents request) pre)
                      ++ map request batch |}).

(** The stage of the run a call to the outside belongs to: building the
    index, listing the issues, listing the labels, syncing the tag
    options, creating, updating.  Console lines belong to no stage. *)
Definition stage (e : event) : nat :=
  match e with
  | NotionDatabasesRetrieve => 1
  | NotionDatabasesQuery _ => 1
  | GitLabIssuesRequest _ _ => 2
  | GitLabLabelsRequest => 3
  | NotionDatabasesUpdate _ => 4
  | NotionPagesCreate _ => 5
  | NotionPagesUpdate _ _ => 6
  | ConsoleLog _ => 0
  end.

Definition isCall (e : event) : bool :=
  match e with ConsoleLog _ => false | _ => true end.

Definition isWrite (e : event) : bool :=
  match e with
  | NotionPagesCreate _ => true
  | NotionPagesUpdate _ _ => true
  | _ => false
  end.

Definition calls (tr : list event) : list event := List.filter isCall tr.

(** The calls of a trace never go back to an earlier stage. *)
Definition inOrder (tr : list event) : Prop :=
  StronglySorted (fun a b => stage a <= stage b) (calls tr).

(** All calls made by the computation belong to stage [s]. *)
Definition phase {A} (s : nat) (c : M A) : Prop :=
  forall m, Forall (fun e => isCall e = true -> stage e = s) (emitted (c m)).

(** The calls made by the computation are in order and none belongs to a
    stage before [s]. *)
Definition staged {A} (s : nat) (c : M A) : Prop :=
  forall m,
    inOrder (emitted (c m)) /\
    Forall (fun e => isCall e = true -> s <= stage e) (emitted (c m)).

(** How far a writer gets: either every operation succeeds, the writer
    returns and has made one request per item, in order; or the batch
    number [j] (counting from 0) is the first with a failing operation,
    the writer throws and has made the requests of the items up to the
    end of that batch, in order, and no other. *)
Definition writerProgress {A} (writer : list A -> M unit)
    (request : A -> event) (answer : A -> response unit) : Prop :=
  forall (work : list A) (m : gmap string string),
    idMap (writer work m) = m /\
    ((out (writer work m) = Returned tt /\
      forallb (fun x => resolved (answer x)) work = true /\
      calls (emitted (writer work m)) = map request work) \/
     (exists j,
        out (writer work m) = Thrown /\
        j * 10 < length work /\
        forallb (fun x => resolved (answer x)) (take (j * 10) work) = true /\
        forallb (fun x => resolved (answer x)) (take 10 (drop (j * 10) work))
        = false /\
        calls (emitted (writer work m)) = map request (take (S j * 10) work))).

Definition isCreate (e : event) : bool :=
  match e with NotionPagesCreate _ => true | _ => false end.

(** What the reconciler plans from the Destination Lister's records and
    the Source Lister's issues. *)
Definition planned (currentIssues : list NotionIssue) (issues : list GitLabIssue)
  : Operations :=
  getNotionOperations (storeIssues currentIssues ∅) issues.

(** The writing stage of the sync: the creates; then, only if
    [createPages] returned, the line announcing the updates and the
    updates; then, only if [updatePages] returned, the success line. *)
Definition writingTrace (w : World) (ops : Operations)
    (idx : gmap string string) : list event :=
  emitted (createPages w (pagesToCreate ops) idx)
  ++ match out (createPages w (pagesToCreate ops) idx) with
     | Returned _ =>
         ConsoleLog (nl +:+ count (pagesToUpdate ops)
                     +:+ " issues to update in Notion.")
         :: emitted (updatePages w (pagesToUpdate ops) idx)
         ++ match out (updatePages w (pagesToUpdate ops) idx) with
            | Returned _ =>
                [ConsoleLog (nl +:+ "✅ Notion database is synced with GitLab.")]
            | _ => []
            end
     | _ => []
     end.

(** The trace of a run that got as far as the writing stage: the index
    is built, the issues are listed, the labels are fetched, the tag
    options made from those labels are sent, the creates are announced,
    and the writing stage follows. *)
Definition runTrace (fuel : nat) (w : World) (currentIssues : list NotionIssue)
    (issues : list GitLabIssue) (labels : list GitLabLabel) : list event :=
  emitted (run (getIssuesFromNotionDatabase fuel w))
  ++ ConsoleLog (nl +:+ "Fetching issues from GitLab repository...")
  :: emitted (getGitLabIssuesForRepository fuel w (storeIssues currentIssues ∅))
  ++ [ ConsoleLog ("Fetched " +:+ count issues
                   +:+ " issues from GitLab repository.");
       GitLabLabelsRequest;
       ConsoleLog ("Fetched " +:+ count labels
                   +:+ " lables from GitLab project.");
       NotionDatabasesUpdate (multiSelectOptions availableColors labels);
       ConsoleLog (nl +:+ count (pagesToCreate (planned currentIssues issues))
                   +:+ " new issues to add to Notion.") ]
  ++ writingTrace w (planned currentIssues issues) (storeIssues currentIssues ∅).

(** A run that threw without having issued a single update. *)
Definition stoppedBeforeUpdates (r : Result unit) : Prop :=
  out r = Thrown /\
  forall pageId properties, ~ In (NotionPagesUpdate pageId properties) (emitted r).

(** The mirror store answers the query for [cursor] with the first of
    [responses], whose next cursor leads to the second, and so on; the
    last response carries no usable next cursor. *)
Fixpoint cursorChain (w : World) (cursor : option string)
    (responses : list QueryResponse) : Prop :=
  match responses with
  | [] => False
  | r :: rest =>
      databases_query w cursor = Resolves r /\
      match rest with
      | [] => JS.truthy (next_cursor r) = false
      | _ :: _ =>
          JS.truthy (next_cursor r) = true /\
          cursorChain w (next_cursor r) rest
      end
  end.

(** The cursors of the queries that walk down such a chain. *)
Fixpoint cursorsAsked (cursor : option string) (responses : list QueryResponse)
  : list (option string) :=
  match responses with
  | [] => []
  | r :: rest => cursor :: cursorsAsked (next_cursor r) rest
  end.

End Vocabulary.

Module Samples.
Import GitLab Effects GitLabClient Sync.

Definition sampleIssue (who : string) (n : N) : GitLabIssue :=
  {| iid := n; title := "Fix login"; description := None; state := "opened";
     assignees := [ {| user_name := who |} ]; labels := ["bug"];
     updated_at := "2024-05-01T10:00:00Z";
     web_url := "https://gitlab.example/issues" |}.

(** A world where every call succeeds and every collection is empty. *)
Definition quietWorld : World :=
  {| databases_retrieve := Resolves tt;
     databases_query := fun _ => Resolves {| results := []; next_cursor := None |};
     gitlab_issues := fun _ => Resolves [];
     gitlab_labels := Resolves [];
     databases_update := fun _ => Resolves tt;
     pages_create := fun _ => Resolves tt;
     pages_update := fun _ _ => Resolves tt |}.

(** A tracker whose page [p] is [pages p]. *)
Definition pagedWorld (pages : nat -> list GitLabIssue) : World :=
  {| databases_retrieve := databases_retrieve quietWorld;
     databases_query := databases_query quietWorld;
     gitlab_issues := fun p => Resolves (pages p);
     gitlab_labels := gitlab_labels quietWorld;
     databases_update := databases_update quietWorld;
     pages_create := pages_create quietWorld;
     pages_update := pages_update quietWorld |}.

(** Pages of the given sizes (page 1 first), empty afterwards, all issues
    assigned to [who]. *)
Definition sizedPages (who : string) (sizes : list nat) (p : nat)
  : list GitLabIssue :=
  map (fun i => sampleIssue who (N.of_nat (100 * p + i)))
      (seq 0 (nth (p - 1) sizes 0)).

(** A database page whose [id] property shows [text]. *)
Definition notionPage (handle text : string) : NotionPage :=
  {| page_id := handle;
     properties_id :=
       Some {| property_id := "%3Bx%5D";
               rich_text := Some [ {| content := Some text; link := None;
                                      plain_text := Some text; href := None |} ] |} |}.

(** A database page whose [id] property has no text segment at all. *)
Definition blankPage (handle : string) : NotionPage :=
  {| page_id := handle;
     properties_id := Some {| property_id := "%3Bx%5D"; rich_text := Some [] |} |}.

(** A database page without the [id] property. *)
Definition barePage (handle : string) : NotionPage :=
  {| page_id := handle; properties_id := None |}.

(** A mirror store holding the given pages, served in one response. *)
Definition storeWorld (pages : list NotionPage) : World :=
  {| databases_retrieve := databases_retrieve quietWorld;
     databases_query := fun _ => Resolves {| results := pages; next_cursor := None |};
     gitlab_issues := gitlab_issues quietWorld;
     gitlab_labels := gitlab_labels quietWorld;
     databases_update := databases_update quietWorld;
     pages_create := pages_create quietWorld;
     pages_update := pages_update quietWorld |}.

(** An index as one run leaves it: issues 1 and 3 are already mirrored. *)
Definition sampleIndex : gmap string string :=
  storeIssues [ {| pageId := "page-a"; issueNumber := "1" |};
                {| pageId := "page-c"; issueNumber := "3" |} ] ∅.

Definition sampleIssues : list GitLabIssue :=
  map (sampleIssue "Jan Strich") [1; 2; 3; 4]%N.

(** A mirror store that refuses the page whose identity reads [text]. *)
Definition refusingWorld (text : string) : World :=
  {| databases_retrieve := databases_retrieve quietWorld;
     databases_query := databases_query quietWorld;
     gitlab_issues := gitlab_issues quietWorld;
     gitlab_labels := gitlab_labels quietWorld;
     databases_update := databases_update quietWorld;
     pages_create := fun props =>
       if decide (plain_text <$> head (p_id props) = Some (Some text))
       then Rejects else Resolves tt;
     pages_update := pages_update quietWorld |}.

(** Twenty-three issues, numbered 1 to 23. *)
Definition work23 : list GitLabIssue :=
  map (fun n => sampleIssue "Jan Strich" (N.of_nat n)) (seq 1 23).

Definition sampleLabels : list GitLabLabel :=
  [ {| label_name := "a" |}; {| label_name := "b" |}; {| label_name := "c" |} ].

(** A small end-to-end setting: issue 1 is mirrored already, issue 2 is
    new, the project has three labels. *)
Definition smallWorld : World :=
  {| databases_retrieve := Resolves tt;
     databases_query := fun _ =>
       Resolves {| results := [notionPage "page-a" "#1"]; next_cursor := None |};
     gitlab_issues := fun p =>
       Resolves (if decide (p = 1)
                 then [sampleIssue "Jan Strich" 1; sampleIssue "Jan Strich" 2]
                 else []);
     gitlab_labels := Resolves sampleLabels;
     databases_update := fun _ => Resolves tt;
     pages_create := fun _ => Resolves tt;
     pages_update := fun _ _ => Resolves tt |}.

(** A tracker whose every page is full. *)
Definition endlessPages (p : nat) : list GitLabIssue :=
  map (fun i => sampleIssue "Jan Strich" (N.of_nat (100 * p + i))) (seq 0 100).

(** A tracker that serves one full page and then fails. *)
Definition brokenWorld : World :=
  {| databases_retrieve := databases_retrieve quietWorld;
     databases_query := databases_query quietWorld;
     gitlab_issues := fun p =>
       if decide (p = 1) then Resolves (endlessPages 1) else Rejects;
     gitlab_labels := gitlab_labels quietWorld;
     databases_update := databases_update quietWorld;
     pages_create := pages_create quietWorld;
     pages_update := pages_update quietWorld |}.

(** A tracker with one short page on which only two of three issues are
    assigned to the configured name. *)
Definition mixedWorld : World :=
  pagedWorld (fun p =>
    if decide (p = 1)
    then [ sampleIssue "Jan Strich" 1; sampleIssue "Ada Lovelace" 2;
           sampleIssue "Jan Strich" 3 ]
    else []).

(** A mirror store that serves three pages in two responses. *)
Definition firstResponse : QueryResponse :=
  {| results := [notionPage "page-a" "#1"; blankPage "page-b"];
     next_cursor := Some "cursor-2" |}.

Definition lastResponse : QueryResponse :=
  {| results := [notionPage "page-c" "#3"]; next_cursor := None |}.

Definition chainWorld : World :=
  {| databases_retrieve := databases_retrieve quietWorld;
     databases_query := fun cursor =>
       match cursor with
       | None => Resolves firstResponse
       | Some _ => Resolves lastResponse
       end;
     gitlab_issues := gitlab_issues quietWorld;
     gitlab_labels := gitlab_labels quietWorld;
     databases_update := databases_update quietWorld;
     pages_create := pages_create quietWorld;
     pages_update := pages_update quietWorld |}.

(** Two issues that differ only in how their assignees are split up. *)
Definition jointIssue : GitLabIssue :=
  {| iid := 5; title := "Fix login"; description := Some "Steps";
     state := "closed"; assignees := [ {| user_name := "Jan Strich, Ada" |} ];
     labels := ["bug"]; updated_at := "2024-05-01T10:00:00Z";
     web_url := "https://gitlab.example/issues/5" |}.

Definition splitIssue : GitLabIssue :=
  {| iid := 5; title := "Fix login"; description := Some "Steps";
     state := "closed";
     assignees := [ {| user_name := "Jan Strich" |}; {| user_name := "Ada" |} ];
     labels := ["bug"]; updated_at := "2024-05-01T10:00:00Z";
     web_url := "https://gitlab.example/issues/5" |}.

(** The page the mirror store holds for an issue once it was written:
    the identity property reads back as it was rendered. *)
Definition mirrored (handle : string) (issue : GitLabIssue) : NotionPage :=
  {| page_id := handle;
     properties_id :=
       Some {| property_id := "%3Bx%5D";
               rich_text := Some (p_id (getPropertiesFromIssue issue)) |} |}.

End Samples.

(** * Properties *)

(** ** Reasoning about the effect monad *)

Module EffectFacts.
Import GitLab Effects Vocabulary.
Local Open Scope js_scope.

Lemma bind_returned {A B} (c : M A) (k : A -> M B) m a :
  out (c m) = Returned a ->
  bind c k m = after (emitted (c m)) (k a (idMap (c m))).
Proof. intros H. unfold bind, after. by rewrite H. Qed.

Lemma bind_thrown {A B} (c : M A) (k : A -> M B) m :
  out (c m) = Thrown ->
  bind c k m = {| out := Thrown; idMap := idMap (c m); emitted := emitted (c m) |}.
Proof. intros H. unfold bind. by rewrite H. Qed.

Lemma bind_outOfFuel {A B} (c : M A) (k : A -> M B) m :
  out (c m) = OutOfFuel ->
  bind c k m = {| out := OutOfFuel; idMap := idMap (c m); emitted := emitted (c m) |}.
Proof. intros H. unfold bind. by rewrite H. Qed.

Lemma bind_emit {B} e (k : M B) m :
  bind (emit e) (fun _ => k) m = after [e] (k m).
Proof. reflexivity. Qed.

Lemma bind_ret {A B} (a : A) (k : A -> M B) m :
  bind (ret a) k m = k a m.
Proof. unfold bind, ret; simpl. by destruct (k a m). Qed.

Lemma bind_await_resolves {A B} (a : A) (k : A -> M B) m :
  bind (await (Resolves a)) k m = k a m.
Proof. apply bind_ret. Qed.

Lemma bind_await_rejects {A B} (k : A -> M B) m :
  bind (await Rejects) k m = {| out := Thrown; idMap := m; emitted := [] |}.
Proof. reflexivity. Qed.

(** What a [bind] emitted: the first part's events, then the second's
    when the first part returned. *)
Lemma emitted_bind {A B} (c : M A) (k : A -> M B) m :
  emitted (bind c k m) =
  emitted (c m) ++
  match out (c m) with
  | Returned a => emitted (k a (idMap (c m)))
  | _ => []
  end.
Proof. unfold bind. destruct (out (c m)); simpl; by rewrite ?app_nil_r. Qed.

Lemma readonly_ret {A} (a : A) : readonly (ret a).
Proof. by intros m. Qed.

Lemma readonly_throw {A} : readonly (@throw A).
Proof. by intros m. Qed.

Lemma readonly_outOfFuel {A} : readonly (@outOfFuel A).
Proof. by intros m. Qed.

Lemma readonly_emit e : readonly (emit e).
Proof. by intros m. Qed.

Lemma readonly_await {A} (p : response A) : readonly (await p).
Proof. by destruct p. Qed.

Lemma readonly_bind {A B} (c : M A) (k : A -> M B) :
  readonly c -> (forall a, readonly (k a)) -> readonly (bind c k).
Proof.
  intros Hc Hk m. unfold bind. specialize (Hc m).
  destruct (out (c m)) as [a| |]; simpl; [|done|done].
  rewrite Hc. apply Hk.
Qed.

Create HintDb readonly.

#[global] Hint Resolve readonly_ret readonly_throw readonly_outOfFuel
  readonly_emit readonly_await : readonly.

End EffectFacts.

(** ** Source Lister: pagination (C2, C9) *)

Module ListerFacts.
Import GitLab Effects Vocabulary Samples EffectFacts GitLabClient.
Local Open Scope js_scope.

Section Pages.
Variable w : World.
Variable pages : nat -> list GitLabIssue.
Hypothesis Hw : forall p, gitlab_issues w p = Resolves (pages p).

Lemma issuesLoop_step fuel issues page m :
  issuesLoop (S fuel) w issues page m =
  after [GitLabIssuesRequest page pageSize]
    (if decide (length (pages page) = pageSize)
     then issuesLoop fuel w (issues ++ List.filter assignedToJan (pages page)) (page + 1) m
     else ret (issues ++ List.filter assignedToJan (pages page)) m).
Proof.
  cbn [issuesLoop]. rewrite bind_emit, Hw, bind_await_resolves.
  by destruct (decide _).
Qed.

(** [k] full pages followed by a page of another length: the loop makes
    [k + 1] requests and returns what the filter kept of all of them. *)
Lemma issuesLoop_run k : forall fuel issues page m,
  (forall i, i < k -> length (pages (page + i)) = pageSize) ->
  length (pages (page + k)) <> pageSize ->
  k < fuel ->
  issuesLoop fuel w issues page m =
  {| out := Returned (issues ++ kept pages page (S k));
     idMap := m;
     emitted := pageRequests page (S k) |}.
Proof.
  induction k as [|k IH]; intros fuel issues page m Hfull Hshort Hfuel.
  - destruct fuel as [|fuel]; [lia|]. rewrite issuesLoop_step.
    rewrite Nat.add_0_r in Hshort. destruct (decide _) as [E|_]; [done|].
    unfold kept, pageRequests, after, ret; simpl. by rewrite app_nil_r.
  - destruct fuel as [|fuel]; [lia|]. rewrite issuesLoop_step.
    destruct (decide _) as [_|E].
    2:{ exfalso. apply E. specialize (Hfull 0). rewrite Nat.add_0_r in Hfull.
        apply Hfull. lia. }
    rewrite (IH fuel _ (page + 1) m).
    + unfold kept, pageRequests, after; simpl. f_equal.
      * f_equal. rewrite <- app_assoc. do 2 f_equal.
        replace (page + 1) with (S page) by lia. reflexivity.
      * replace (page + 1) with (S page) by lia. reflexivity.
    + intros i Hi. replace (page + 1 + i) with (page + S i) by lia.
      apply Hfull. lia.
    + replace (page + 1 + k) with (page + S k) by lia. done.
    + lia.
Qed.

(** Conversely, whenever the loop returns, the last page it asked for
    was not full and all the earlier ones were. *)
Lemma issuesLoop_returned fuel : forall issues page m result,
  out (issuesLoop fuel w issues page m) = Returned result ->
  exists k,
    k < fuel /\
    (forall i, i < k -> length (pages (page + i)) = pageSize) /\
    length (pages (page + k)) <> pageSize.
Proof.
  induction fuel as [|fuel IH]; intros issues page m result Hout; [done|].
  rewrite issuesLoop_step in Hout.
  destruct (decide _) as [E|E].
  - simpl in Hout. destruct (IH _ _ _ _ Hout) as (k & Hlt & Hfull & Hshort).
    exists (S k). split; [lia|]. split.
    + intros [|i] Hi; [by rewrite Nat.add_0_r|].
      replace (page + S i) with (page + 1 + i) by lia. apply Hfull. lia.
    + by replace (page + S k) with (page + 1 + k) by lia.
  - exists 0. split; [lia|]. split; [intros; lia|]. by rewrite Nat.add_0_r.
Qed.

End Pages.

Lemma filter_all {A} (f : A -> bool) (l : list A) :
  (forall x, In x l -> f x = true) -> List.filter f l = l.
Proof.
  induction l as [|x l IH]; intros H; simpl; [done|].
  rewrite (H x) by (by left). f_equal. apply IH. intros y Hy. apply H. by right.
Qed.

Lemma filter_none {A} (f : A -> bool) (l : list A) :
  (forall x, In x l -> f x = false) -> List.filter f l = [].
Proof.
  induction l as [|x l IH]; intros H; simpl; [done|].
  rewrite (H x) by (by left). apply IH. intros y Hy. apply H. by right.
Qed.

(** C2. The Source Lister asks for pages of 100 items from page 1 on and
    stops exactly at the first response shorter than 100: after [n] full
    pages and a short one it has made [n + 1] requests and returns what
    the filter kept of them, and whenever it returns this is how it
    stopped.  With pages of sizes 100, 100, 37 whose items all match the
    filter: 3 requests, 237 items; with sizes 100, 100, 0: 3 requests
    (the last one for the empty page), 200 items. *)
Theorem C2_pagination_termination
    (w : World) (pages : nat -> list GitLabIssue)
    (Hw : forall p, gitlab_issues w p = Resolves (pages p))
    (Hcap : forall p, length (pages p) <= pageSize) :
  pageSize = 100 /\
  (forall n fuel m,
      (forall p, 1 <= p <= n -> length (pages p) = pageSize) ->
      length (pages (S n)) < pageSize ->
      n < fuel ->
      getGitLabIssuesForRepository fuel w m =
      {| out := Returned (kept pages 1 (S n)); idMap := m;
         emitted := pageRequests 1 (S n) |}) /\
  (forall fuel m issues,
      out (getGitLabIssuesForRepository fuel w m) = Returned issues ->
      exists n,
        emitted (getGitLabIssuesForRepository fuel w m) = pageRequests 1 (S n) /\
        (forall p, 1 <= p <= n -> length (pages p) = pageSize) /\
        length (pages (S n)) < pageSize) /\
  (length (pages 1) = 100 -> length (pages 2) = 100 -> length (pages 3) = 37 ->
   (forall p x, In x (pages p) -> assignedToJan x = true) ->
   forall fuel m, 3 <= fuel ->
     exists issues,
       out (getGitLabIssuesForRepository fuel w m) = Returned issues /\
       length issues = 237 /\
       emitted (getGitLabIssuesForRepository fuel w m)
       = [GitLabIssuesRequest 1 100; GitLabIssuesRequest 2 100;
          GitLabIssuesRequest 3 100]) /\
  (length (pages 1) = 100 -> length (pages 2) = 100 -> length (pages 3) = 0 ->
   (forall p x, In x (pages p) -> assignedToJan x = true) ->
   forall fuel m, 3 <= fuel ->
     exists issues,
       out (getGitLabIssuesForRepository fuel w m) = Returned issues /\
       length issues = 200 /\
       emitted (getGitLabIssuesForRepository fuel w m)
       = [GitLabIssuesRequest 1 100; GitLabIssuesRequest 2 100;
          GitLabIssuesRequest 3 100]).
Proof.
  assert (Hgen : forall n fuel m,
      (forall p, 1 <= p <= n -> length (pages p) = pageSize) ->
      length (pages (S n)) <> pageSize ->
      n < fuel ->
      getGitLabIssuesForRepository fuel w m =
      {| out := Returned (kept pages 1 (S n)); idMap := m;
         emitted := pageRequests 1 (S n) |}).
  { intros n fuel m Hfull Hshort Hfuel. unfold getGitLabIssuesForRepository.
    rewrite (issuesLoop_run w pages Hw n); [done| |done|done].
    intros i Hi. apply Hfull. lia. }
  assert (Hscen : forall last, last < 100 ->
     length (pages 1) = 100 -> length (pages 2) = 100 -> length (pages 3) = last ->
     (forall p x, In x (pages p) -> assignedToJan x = true) ->
     forall fuel m, 3 <= fuel ->
     exists issues,
       out (getGitLabIssuesForRepository fuel w m) = Returned issues /\
       length issues = 200 + last /\
       emitted (getGitLabIssuesForRepository fuel w m)
       = [GitLabIssuesRequest 1 100; GitLabIssuesRequest 2 100;
          GitLabIssuesRequest 3 100]).
  { intros last Hlast H1 H2 H3 Hall fuel m Hfuel.
    rewrite (Hgen 2 fuel m); [| |unfold pageSize; lia|lia].
    - eexists. split; [reflexivity|]. split; [|reflexivity].
      unfold kept; simpl. rewrite !length_app, !filter_all by (apply Hall).
      simpl. lia.
    - intros p Hp. assert (p = 1 \/ p = 2) as [->| ->] by lia; done. }
  split; [reflexivity|]. split; [|split; [|split]].
  - intros n fuel m Hfull Hshort Hfuel. apply Hgen; [done|lia|done].
  - intros fuel m issues Hout. unfold getGitLabIssuesForRepository in *.
    destruct (issuesLoop_returned w pages Hw _ _ _ _ _ Hout)
      as (k & Hlt & Hfull & Hshort).
    exists k. split; [|split].
    + by rewrite (issuesLoop_run w pages Hw k).
    + intros p Hp. replace p with (1 + (p - 1)) by lia. apply Hfull. lia.
    + specialize (Hcap (S k)). simpl in Hshort. lia.
  - apply (Hscen 37). lia.
  - apply (Hscen 0). lia.
Qed.

Lemma kept_split (pages : nat -> list GitLabIssue) page n1 n2 :
  kept pages page (n1 + n2) = kept pages page n1 ++ kept pages (page + n1) n2.
Proof. unfold kept. by rewrite seq_app, map_app, concat_app. Qed.

Lemma kept_one (pages : nat -> list GitLabIssue) page :
  kept pages page 1 = List.filter assignedToJan (pages page).
Proof. unfold kept; simpl. by rewrite app_nil_r. Qed.

(** Two trackers whose pages have the same lengths as received are
    asked for the same pages, and the listing returns for one exactly if
    it returns for the other, whatever the filter keeps on either side. *)
Lemma issuesLoop_lengths_only fuel :
  forall (w1 w2 : World) (pages1 pages2 : nat -> list GitLabIssue),
    (forall p, gitlab_issues w1 p = Resolves (pages1 p)) ->
    (forall p, gitlab_issues w2 p = Resolves (pages2 p)) ->
    (forall p, length (pages1 p) = length (pages2 p)) ->
    forall issues1 issues2 page m1 m2,
      emitted (issuesLoop fuel w1 issues1 page m1)
      = emitted (issuesLoop fuel w2 issues2 page m2) /\
      ((exists r, out (issuesLoop fuel w1 issues1 page m1) = Returned r) <->
       (exists r, out (issuesLoop fuel w2 issues2 page m2) = Returned r)).
Proof.
  induction fuel as [|fuel IH];
    intros w1 w2 pages1 pages2 H1 H2 Hlen issues1 issues2 page m1 m2.
  - split; [done|]. split; intros [r Hr]; discriminate Hr.
  - rewrite (issuesLoop_step w1 pages1 H1), (issuesLoop_step w2 pages2 H2).
    rewrite (Hlen page). destruct (decide _) as [E|E].
    + destruct (IH w1 w2 pages1 pages2 H1 H2 Hlen
                  (issues1 ++ List.filter assignedToJan (pages1 page))
                  (issues2 ++ List.filter assignedToJan (pages2 page))
                  (page + 1) m1 m2) as [Hem Hout].
      unfold after. cbn [out emitted]. split; [by rewrite Hem|done].
    + split; [done|]. split; intros _; eexists; reflexivity.
Qed.

(** C9. Whether to go on is decided, at every response page, on the
    length of the page as received, not on what the assignee filter
    keeps of it.  Each turn of the loop asks for its page, adds what the
    filter keeps and goes on exactly if the page as received has 100
    items.  So after [n] pages of 100 items and a page of another length
    the lister has made [n + 1] requests and returns what the filter
    kept, whatever it kept, and it returns in no other way.  A full page
    without a single match, wherever it comes, adds nothing and is still
    followed by the request for the next page; a short page ends the
    listing although every item on it matched.  Which pages are asked
    for depends on the lengths as received alone: two trackers that
    agree on them get the same requests. *)
Theorem C9_termination_on_unfiltered_length
    (w : World) (pages : nat -> list GitLabIssue)
    (Hw : forall p, gitlab_issues w p = Resolves (pages p)) :
  (forall fuel issues page m,
      issuesLoop (S fuel) w issues page m =
      after [GitLabIssuesRequest page pageSize]
        (if decide (length (pages page) = pageSize)
         then issuesLoop fuel w
                (issues ++ List.filter assignedToJan (pages page)) (page + 1) m
         else ret (issues ++ List.filter assignedToJan (pages page)) m)) /\
  (forall n fuel m,
      (forall p, 1 <= p <= n -> length (pages p) = pageSize) ->
      length (pages (S n)) <> pageSize ->
      n < fuel ->
      getGitLabIssuesForRepository fuel w m =
      {| out := Returned (kept pages 1 (S n)); idMap := m;
         emitted := pageRequests 1 (S n) |}) /\
  (forall fuel m issues,
      out (getGitLabIssuesForRepository fuel w m) = Returned issues ->
      exists n,
        n < fuel /\
        emitted (getGitLabIssuesForRepository fuel w m) = pageRequests 1 (S n) /\
        issues = kept pages 1 (S n) /\
        (forall p, 1 <= p <= n -> length (pages p) = pageSize) /\
        length (pages (S n)) <> pageSize) /\
  (forall n p fuel m,
      (forall q, 1 <= q <= n -> length (pages q) = pageSize) ->
      length (pages (S n)) <> pageSize ->
      n < fuel ->
      1 <= p <= n ->
      (forall x, In x (pages p) -> assignedToJan x = false) ->
      In (GitLabIssuesRequest (S p) pageSize)
         (emitted (getGitLabIssuesForRepository fuel w m)) /\
      out (getGitLabIssuesForRepository fuel w m)
      = Returned (kept pages 1 (p - 1) ++ kept pages (S p) (S n - p))) /\
  (forall n fuel m,
      (forall q, 1 <= q <= n -> length (pages q) = pageSize) ->
      length (pages (S n)) < pageSize ->
      (forall x, In x (pages (S n)) -> assignedToJan x = true) ->
      n < fuel ->
      getGitLabIssuesForRepository fuel w m =
      {| out := Returned (kept pages 1 n ++ pages (S n)); idMap := m;
         emitted := pageRequests 1 (S n) |}) /\
  (forall (w' : World) (pages' : nat -> list GitLabIssue),
      (forall p, gitlab_issues w' p = Resolves (pages' p)) ->
      (forall p, length (pages' p) = length (pages p)) ->
      forall fuel m,
        emitted (getGitLabIssuesForRepository fuel w' m)
        = emitted (getGitLabIssuesForRepository fuel w m) /\
        ((exists r, out (getGitLabIssuesForRepository fuel w' m) = Returned r) <->
         (exists r, out (getGitLabIssuesForRepository fuel w m) = Returned r))).
Proof.
  assert (Hgen : forall n fuel m,
      (forall p, 1 <= p <= n -> length (pages p) = pageSize) ->
      length (pages (S n)) <> pageSize ->
      n < fuel ->
      getGitLabIssuesForRepository fuel w m =
      {| out := Returned (kept pages 1 (S n)); idMap := m;
         emitted := pageRequests 1 (S n) |}).
  { intros n fuel m Hfull Hshort Hfuel. unfold getGitLabIssuesForRepository.
    rewrite (issuesLoop_run w pages Hw n); [done| |done|done].
    intros i Hi. apply Hfull. lia. }
  split; [|split; [|split; [|split; [|split]]]].
  - intros fuel issues page m. apply (issuesLoop_step w pages Hw).
  - exact Hgen.
  - intros fuel m issues Hout.
    pose proof Hout as Hout'. unfold getGitLabIssuesForRepository in Hout'.
    destruct (issuesLoop_returned w pages Hw _ _ _ _ _ Hout')
      as (k & Hlt & Hfull & Hshort).
    assert (forall p, 1 <= p <= k -> length (pages p) = pageSize) as Hfull'.
    { intros p Hp. replace p with (1 + (p - 1)) by lia. apply Hfull. lia. }
    exists k. rewrite (Hgen k fuel m Hfull' Hshort Hlt) in Hout |- *.
    cbn [out emitted] in *. injection Hout as <-. done.
  - intros n p fuel m Hfull Hshort Hfuel Hp Hnone.
    rewrite (Hgen n fuel m Hfull Hshort Hfuel). cbn [out emitted]. split.
    + unfold pageRequests. apply in_map_iff. exists (S p).
      split; [done|]. apply in_seq. lia.
    + f_equal. replace (S n) with ((p - 1) + (1 + (S n - p))) at 1 by lia.
      rewrite kept_split, kept_split, kept_one.
      replace (1 + (p - 1)) with p by lia.
      rewrite (filter_none _ _ Hnone). cbn [app].
      by replace (p + 1) with (S p) by lia.
  - intros n fuel m Hfull Hshort Hall Hfuel.
    rewrite (Hgen n fuel m Hfull) by (done || lia). do 2 f_equal.
    replace (S n) with (n + 1) at 1 by lia.
    rewrite kept_split, kept_one. replace (1 + n) with (S n) by lia.
    by rewrite (filter_all _ _ Hall).
  - intros w' pages' Hw' Hlen fuel m. unfold getGitLabIssuesForRepository.
    by apply (issuesLoop_lengths_only fuel w' w pages' pages).
Qed.

Lemma sizedPages_length who sizes p :
  length (sizedPages who sizes p) = nth (p - 1) sizes 0.
Proof. unfold sizedPages. by rewrite length_map, length_seq. Qed.

Lemma sizedPages_assigned p x sizes :
  In x (sizedPages "Jan Strich" sizes p) -> assignedToJan x = true.
Proof.
  unfold sizedPages. intros H. apply in_map_iff in H as (i & <- & _).
  reflexivity.
Qed.

Lemma sizedPages_unassigned p x sizes :
  In x (sizedPages "Ada Lovelace" sizes p) -> assignedToJan x = false.
Proof.
  unfold sizedPages. intros H. apply in_map_iff in H as (i & <- & _).
  reflexivity.
Qed.

Lemma C2_pagination_termination_witness :
  exists issues,
    out (getGitLabIssuesForRepository 3
           (pagedWorld (sizedPages "Jan Strich" [100; 100; 37])) ∅)
    = Returned issues /\
    length issues = 237 /\
    emitted (getGitLabIssuesForRepository 3
               (pagedWorld (sizedPages "Jan Strich" [100; 100; 37])) ∅)
    = [GitLabIssuesRequest 1 100; GitLabIssuesRequest 2 100;
       GitLabIssuesRequest 3 100].
Proof.
  assert (Hcap : forall p,
    length (sizedPages "Jan Strich" [100; 100; 37] p) <= pageSize).
  { intros p. rewrite sizedPages_length. unfold pageSize.
    destruct p as [|[|[|[|[|p]]]]]; simpl; lia. }
  destruct (C2_pagination_termination
              (pagedWorld (sizedPages "Jan Strich" [100; 100; 37]))
              (sizedPages "Jan Strich" [100; 100; 37])
              (fun p => eq_refl) Hcap) as (_ & _ & _ & Hscenario & _).
  apply Hscenario.
  - reflexivity.
  - reflexivity.
  - reflexivity.
  - intros p x. apply sizedPages_assigned.
  - lia.
Defined.

Lemma C9_termination_on_unfiltered_length_witness :
  getGitLabIssuesForRepository 3
    (pagedWorld (sizedPages "Ada Lovelace" [100; 100; 5])) ∅ =
  {| out := Returned []; idMap := ∅;
     emitted := [GitLabIssuesRequest 1 pageSize; GitLabIssuesRequest 2 pageSize;
                 GitLabIssuesRequest 3 pageSize] |}.
Proof.
  destruct (C9_termination_on_unfiltered_length
              (pagedWorld (sizedPages "Ada Lovelace" [100; 100; 5]))
              (sizedPages "Ada Lovelace" [100; 100; 5])
              (fun p => eq_refl)) as (_ & Hrun & _).
  rewrite (Hrun 2).
  - reflexivity.
  - intros p Hp. rewrite sizedPages_length.
    assert (p = 1 \/ p = 2) as [->| ->] by lia; reflexivity.
  - rewrite sizedPages_length. unfold pageSize. simpl. lia.
  - lia.
Defined.

End ListerFacts.
(** ** Destination Lister and Identity Index (C3, C6, C10) *)

Module IndexFacts.
Import GitLab Effects Vocabulary Samples EffectFacts GitLabClient Sync.
Local Open Scope js_scope.

Lemma decimalValue_toString (n : N) :
  JS.decimalValue (JS.Number_toString n) = Some n.
Proof.
  unfold JS.decimalValue, JS.Number_toString.
  rewrite NilEmpty.usu. simpl. f_equal. apply Unsigned.of_to.
Qed.

Lemma toString_inj (a b : N) :
  JS.Number_toString a = JS.Number_toString b -> a = b.
Proof.
  intros H. apply (f_equal JS.decimalValue) in H.
  rewrite !decimalValue_toString in H. congruence.
Qed.

Lemma toString_not_proto (n : N) : JS.Number_toString n <> "__proto__".
Proof.
  intros H. apply (f_equal JS.decimalValue) in H.
  rewrite decimalValue_toString in H. discriminate H.
Qed.

Lemma storeIssues_snoc l x m :
  storeIssues (l ++ [x]) m
  = JS.obj_set (issueNumber x) (pageId x) (storeIssues l m).
Proof. unfold storeIssues. by rewrite foldl_app. Qed.

(** A key of the map holds the handle of the last record filed under it. *)
Lemma storeIssues_lookup_last (l : list NotionIssue) :
  forall m key j e,
    key <> "__proto__" ->
    l !! j = Some e -> issueNumber e = key ->
    (forall j' y, j < j' -> l !! j' = Some y -> issueNumber y <> key) ->
    storeIssues l m !! key = Some (pageId e).
Proof.
  induction l as [|x l IH] using rev_ind; intros m key j e Hkey Hj He Hlast.
  - done.
  - rewrite storeIssues_snoc. unfold JS.obj_set.
    destruct (decide (j = length l)) as [->|Hne].
    + rewrite lookup_app_r, Nat.sub_diag in Hj by lia. simplify_eq/=.
      destruct (decide _) as [E|_]; [done|]. by rewrite lookup_insert_eq.
    + assert (j < length l).
      { apply lookup_lt_Some in Hj. rewrite length_app in Hj. simpl in Hj. lia. }
      rewrite lookup_app_l in Hj by done.
      assert (issueNumber x <> key) as Hx.
      { apply (Hlast (length l)); [done|].
        by rewrite lookup_app_r, Nat.sub_diag by lia. }
      assert (storeIssues l m !! key = Some (pageId e)) as Hl.
      { apply (IH m key j e); try done. intros j' y Hlt Hy.
        apply (Hlast j' y Hlt). rewrite lookup_app_l; [done|].
        by apply lookup_lt_Some in Hy. }
      destruct (decide _); [done|]. by rewrite lookup_insert_ne.
Qed.

(** The key [__proto__] is never stored. *)
Lemma storeIssues_proto (l : list NotionIssue) :
  storeIssues l ∅ !! "__proto__" = None.
Proof.
  induction l as [|x l IH] using rev_ind; [done|].
  rewrite storeIssues_snoc. unfold JS.obj_set.
  destruct (decide _); [done|]. by rewrite lookup_insert_ne.
Qed.

(** Every handle found in the map built from scratch is the handle of
    the last record filed under its key. *)
Lemma storeIssues_lookup_Some (l : list NotionIssue) :
  forall key h,
    storeIssues l ∅ !! key = Some h ->
    exists i x,
      l !! i = Some x /\ issueNumber x = key /\ pageId x = h /\
      forall j y, i < j -> l !! j = Some y -> issueNumber y <> key.
Proof.
  induction l as [|x l IH] using rev_ind; intros key h Hlook.
  - done.
  - rewrite storeIssues_snoc in Hlook. unfold JS.obj_set in Hlook.
    assert (forall i x0,
      l !! i = Some x0 -> issueNumber x <> key ->
      (forall j y, i < j -> l !! j = Some y -> issueNumber y <> key) ->
      forall j y, i < j -> (l ++ [x]) !! j = Some y -> issueNumber y <> key)
      as Hext.
    { intros i x0 Hi Hx Hlast j y Hlt Hy.
      destruct (decide (j < length l)) as [Hj|Hj].
      - rewrite lookup_app_l in Hy by done. by apply (Hlast j).
      - rewrite lookup_app_r in Hy by lia.
        destruct (j - length l) as [|d] eqn:E; simpl in Hy; [|done].
        by simplify_eq. }
    destruct (decide (issueNumber x = "__proto__")) as [Eproto|Nproto].
    + destruct (IH key h Hlook) as (i & x0 & Hi & Hk & Hh & Hlast).
      exists i, x0. repeat split; try done.
      * by apply lookup_app_l_Some.
      * apply (Hext i x0); try done. intros E. rewrite Eproto in E.
        by rewrite <- E, storeIssues_proto in Hlook.
    + destruct (decide (issueNumber x = key)) as [<-|Hne].
      * rewrite lookup_insert_eq in Hlook. simplify_eq.
        exists (length l), x. repeat split.
        -- by rewrite lookup_app_r, Nat.sub_diag by lia.
        -- intros j y Hlt Hy. apply lookup_lt_Some in Hy.
           rewrite length_app in Hy. simpl in Hy. lia.
      * rewrite lookup_insert_ne in Hlook by done.
        destruct (IH key h Hlook) as (i & x0 & Hi & Hk & Hh & Hlast).
        exists i, x0. repeat split; try done.
        -- by apply lookup_app_l_Some.
        -- by apply (Hext i x0).
Qed.

Lemma collectIssues_all (pages : list NotionPage) :
  Forall (fun page => is_Some (properties_id page)) pages ->
  forall issues m,
    collectIssues pages issues m =
    {| out := Returned (issues ++ omap entryOf pages); idMap := m;
       emitted := concat (map oopsOf pages) |}.
Proof.
  induction 1 as [|page pages [prop Hprop] _ IH]; intros issues m.
  - simpl. unfold ret. by rewrite app_nil_r.
  - assert (entryOf page =
            match readIssueNumber prop with
            | Some number => Some {| pageId := page_id page; issueNumber := number |}
            | None => None
            end) as Hentry by (unfold entryOf; by rewrite Hprop).
    cbn [collectIssues omap list_omap map concat]. unfold oopsOf at 1.
    rewrite Hentry, Hprop. destruct (readIssueNumber prop) as [number|].
    + rewrite IH. cbn [app]. by rewrite <- app_assoc.
    + unfold console_log. rewrite bind_emit, IH. reflexivity.
Qed.

Lemma queryLoop_readonly fuel w : forall pages cursor,
  readonly (queryLoop fuel w pages cursor).
Proof.
  induction fuel as [|fuel IH]; intros pages cursor; simpl.
  - auto with readonly.
  - apply readonly_bind; [auto with readonly|]. intros _.
    apply readonly_bind; [auto with readonly|]. intros r.
    destruct (negb _); [auto with readonly|apply IH].
Qed.

Lemma collectIssues_readonly pages : forall issues,
  readonly (collectIssues pages issues).
Proof.
  induction pages as [|page pages IH]; intros issues; simpl.
  - auto with readonly.
  - destruct (properties_id page) as [prop|]; [|auto with readonly].
    destruct (readIssueNumber prop); [apply IH|].
    apply readonly_bind; [unfold console_log; auto with readonly|].
    intros _. apply IH.
Qed.

Lemma getIssuesFromNotionDatabase_readonly fuel w :
  readonly (getIssuesFromNotionDatabase fuel w).
Proof.
  unfold getIssuesFromNotionDatabase.
  apply readonly_bind; [auto with readonly|]. intros _.
  apply readonly_bind; [auto with readonly|]. intros _.
  apply readonly_bind; [apply queryLoop_readonly|]. intros pages.
  apply readonly_bind; [unfold console_log; auto with readonly|]. intros _.
  apply collectIssues_readonly.
Qed.

(** The index a run starts from is the map filled from the lister's
    output, in the lister's order. *)
Lemma setInitial_run fuel w currentIssues :
  out (run (getIssuesFromNotionDatabase fuel w)) = Returned currentIssues ->
  run (setInitialGitLabToNotionIdMap fuel w) =
  {| out := Returned tt; idMap := storeIssues currentIssues ∅;
     emitted := emitted (run (getIssuesFromNotionDatabase fuel w)) |}.
Proof.
  unfold run, setInitialGitLabToNotionIdMap. intros Hout.
  rewrite (bind_returned _ _ _ _ Hout).
  rewrite (getIssuesFromNotionDatabase_readonly fuel w ∅).
  unfold after, bind, readIdMap, writeIdMap; simpl. by rewrite app_nil_r.
Qed.

End IndexFacts.
(** ** Reconciler (C4, C5) *)

Module ReconcilerFacts.
Import GitLab Effects Vocabulary Samples EffectFacts GitLabClient Sync.

Lemma classify_fold m issues : forall ops,
  foldl (classify m) ops issues =
  {| pagesToCreate :=
       pagesToCreate ops ++ List.filter (fun i => negb (existing m i)) issues;
     pagesToUpdate := pagesToUpdate ops ++ omap (updateOf m) issues |}.
Proof.
  induction issues as [|issue issues IH]; intros ops.
  - simpl. rewrite !app_nil_r. by destruct ops.
  - cbn [foldl]. rewrite IH. unfold classify, existing, updateOf.
    cbn [List.filter omap list_omap].
    destruct (lookupPageId m issue) as [handle|]; [destruct (JS.truthy (Some handle))|];
      cbn [pagesToCreate pagesToUpdate negb]; by rewrite <- ?app_assoc.
Qed.

Lemma getNotionOperations_spec m issues :
  getNotionOperations m issues =
  {| pagesToCreate := List.filter (fun i => negb (existing m i)) issues;
     pagesToUpdate := omap (updateOf m) issues |}.
Proof. unfold getNotionOperations. by rewrite classify_fold. Qed.

Lemma updateOf_Some m issue u :
  updateOf m issue = Some u ->
  u_issue u = issue /\ lookupPageId m issue = Some (u_pageId u) /\
  existing m issue = true.
Proof.
  unfold updateOf, existing. destruct (lookupPageId m issue) as [handle|]; [|done].
  destruct (JS.truthy (Some handle)) eqn:E; [|done].
  by intros [= <-].
Qed.

Lemma updates_issues m issues :
  map u_issue (omap (updateOf m) issues) = List.filter (existing m) issues.
Proof.
  induction issues as [|issue issues IH]; [done|].
  cbn [omap list_omap List.filter]. unfold updateOf at 1, existing at 1.
  destruct (lookupPageId m issue) as [handle|]; [|done].
  destruct (JS.truthy (Some handle)); [|done].
  simpl. by rewrite IH.
Qed.

Lemma filter_split_length {A} (f : A -> bool) (l : list A) :
  length (List.filter (fun x => negb (f x)) l) + length (List.filter f l)
  = length l.
Proof.
  induction l as [|x l IH]; [done|]. simpl. destruct (f x); simpl; lia.
Qed.

Lemma filter_split_perm {A} (f : A -> bool) (l : list A) :
  Permutation (List.filter (fun x => negb (f x)) l ++ List.filter f l) l.
Proof.
  induction l as [|x l IH]; [done|]. simpl. destruct (f x); simpl.
  - rewrite <- Permutation_middle. by constructor.
  - by constructor.
Qed.

Lemma filter_sublist {A} (f : A -> bool) (l : list A) :
  List.filter f l `sublist_of` l.
Proof.
  induction l as [|x l IH]; [constructor|]. simpl.
  destruct (f x); by constructor.
Qed.

(** C4. The reconciler's two lists are disjoint and together hold every
    input item exactly once: their lengths add up to the input's, the
    creates followed by the updated issues are a rearrangement of the
    input, and no item is in both.  An item is updated when the index
    holds a handle under its localId and created otherwise (handles
    being the non-empty identifiers the mirror store issues). *)
Theorem C4_classification_partition
    (m : gmap string string) (issues : list GitLabIssue) :
  let ops := getNotionOperations m issues in
  length (pagesToCreate ops) + length (pagesToUpdate ops) = length issues /\
  Permutation (pagesToCreate ops ++ map u_issue (pagesToUpdate ops)) issues /\
  (forall c u, In c (pagesToCreate ops) -> In u (pagesToUpdate ops) ->
               c <> u_issue u /\ iid c <> iid (u_issue u)) /\
  ((forall key handle, m !! key = Some handle -> handle <> "") ->
   forall issue, In issue issues ->
     match m !! JS.Number_toString (iid issue) with
     | Some handle =>
         In {| u_issue := issue; u_pageId := handle |} (pagesToUpdate ops) /\
         ~ In issue (pagesToCreate ops)
     | None =>
         In issue (pagesToCreate ops) /\
         ~ In issue (map u_issue (pagesToUpdate ops))
     end).
Proof.
  intros ops. unfold ops. rewrite getNotionOperations_spec. simpl.
  split; [|split; [|split]].
  - rewrite <- (length_map u_issue), updates_issues. apply filter_split_length.
  - rewrite updates_issues. apply filter_split_perm.
  - intros c u Hc Hu. apply filter_In in Hc as [_ Hc].
    apply list_elem_of_In, list_elem_of_omap in Hu as (issue & _ & Hu).
    apply updateOf_Some in Hu as (<- & _ & He).
    assert (existing m c <> existing m (u_issue u)) as Hdiff
      by (rewrite He; by destruct (existing m c)).
    split; intros E; apply Hdiff.
    + by rewrite E.
    + unfold existing, lookupPageId. by rewrite E.
  - intros Hhandles issue Hin.
    destruct (m !! JS.Number_toString (iid issue)) as [handle|] eqn:Hlook.
    + assert (existing m issue = true) as He.
      { unfold existing, lookupPageId. rewrite Hlook.
        specialize (Hhandles _ _ Hlook). by destruct handle. }
      split.
      * apply list_elem_of_In, list_elem_of_omap. exists issue.
        split; [by apply list_elem_of_In|].
        unfold updateOf, lookupPageId. rewrite Hlook.
        unfold existing, lookupPageId in He. rewrite Hlook in He. by rewrite He.
      * rewrite filter_In. intros [_ H]. by rewrite He in H.
    + assert (existing m issue = false) as He
        by (unfold existing, lookupPageId; by rewrite Hlook).
      split.
      * apply filter_In. split; [done|]. by rewrite He.
      * rewrite updates_issues, filter_In. intros [_ H]. by rewrite He in H.
Qed.

Lemma sampleIndex_handles key handle :
  sampleIndex !! key = Some handle -> handle <> "".
Proof.
  unfold sampleIndex, storeIssues; simpl. unfold JS.obj_set; simpl.
  intros H. apply lookup_insert_Some in H as [[_ <-]|[_ H]]; [done|].
  apply lookup_insert_Some in H as [[_ <-]|[_ H]]; done.
Qed.

Lemma C4_classification_partition_witness :
  In {| u_issue := sampleIssue "Jan Strich" 3; u_pageId := "page-c" |}
     (pagesToUpdate (getNotionOperations sampleIndex sampleIssues)) /\
  ~ In (sampleIssue "Jan Strich" 3)
       (pagesToCreate (getNotionOperations sampleIndex sampleIssues)).
Proof.
  destruct (C4_classification_partition sampleIndex sampleIssues)
    as (_ & _ & _ & Hrule).
  apply (Hrule sampleIndex_handles (sampleIssue "Jan Strich" 3)).
  simpl. auto.
Defined.

(** C5. Each of the reconciler's two lists keeps the relative order of
    the input: the creates are the input with the indexed items struck
    out, the updates are the input with the others struck out. *)
Theorem C5_order_preserved
    (m : gmap string string) (issues : list GitLabIssue) :
  let ops := getNotionOperations m issues in
  pagesToCreate ops = List.filter (fun i => negb (existing m i)) issues /\
  map u_issue (pagesToUpdate ops) = List.filter (existing m) issues /\
  pagesToCreate ops `sublist_of` issues /\
  map u_issue (pagesToUpdate ops) `sublist_of` issues.
Proof.
  intros ops. unfold ops. rewrite getNotionOperations_spec. simpl.
  rewrite updates_issues.
  repeat split; apply filter_sublist.
Qed.

End ReconcilerFacts.
(** ** Identity: rendering, reading back, indexing (C3, C6, C10) *)

Module IdentityFacts.
Import GitLab Effects Vocabulary Samples EffectFacts GitLabClient Sync.
Import IndexFacts ReconcilerFacts.
Local Open Scope js_scope.

(** C3. For a localId between 1 and 10000 the field mapper renders the
    identity property as one segment whose display text and plain text
    are both "#" followed by the localId, linked to the issue's url; the
    Destination Lister's reader, given that property back, yields the
    text after the "#", which is the decimal numeral of the localId and
    reads as the localId; the index built from it answers the issue's own
    lookup with the page's handle. *)
Theorem C3_identity_round_trip
    (issue : GitLabIssue) (handle pid : string)
    (Hrange : (1 <= iid issue <= 10000)%N) :
  let rendered := p_id (getPropertiesFromIssue issue) in
  let prop := {| property_id := pid; rich_text := Some rendered |} in
  let page := {| page_id := handle; properties_id := Some prop |} in
  let entry := {| pageId := handle;
                  issueNumber := JS.Number_toString (iid issue) |} in
  (exists segment,
      rendered = [segment] /\
      content segment = Some ("#" +:+ JS.Number_toString (iid issue)) /\
      plain_text segment = content segment /\
      link segment = Some (web_url issue)) /\
  readIssueNumber prop = Some (JS.Number_toString (iid issue)) /\
  (readIssueNumber prop ≫= JS.decimalValue) = Some (iid issue) /\
  (forall m, collectIssues [page] [] m =
             {| out := Returned [entry]; idMap := m; emitted := [] |}) /\
  lookupPageId (storeIssues [entry] ∅) issue = Some handle.
Proof.
  intros rendered prop page entry.
  assert (readIssueNumber prop = Some (JS.Number_toString (iid issue))) as Hread
    by reflexivity.
  split; [|split; [|split; [|split]]].
  - eexists. repeat split; reflexivity.
  - exact Hread.
  - rewrite Hread. simpl. apply decimalValue_toString.
  - intros m. reflexivity.
  - unfold lookupPageId, storeIssues, entry; simpl. unfold JS.obj_set.
    destruct (decide _) as [E|_]; [by apply toString_not_proto in E|].
    by rewrite lookup_insert_eq.
Qed.

Lemma C3_identity_round_trip_witness :
  (readIssueNumber
     {| property_id := "%3Bx%5D";
        rich_text := Some (p_id (getPropertiesFromIssue
                                   (sampleIssue "Jan Strich" 4711))) |}
   ≫= JS.decimalValue) = Some 4711%N.
Proof.
  assert (1 <= iid (sampleIssue "Jan Strich" 4711) <= 10000)%N as Hrange
    by (simpl; lia).
  destruct (C3_identity_round_trip (sampleIssue "Jan Strich" 4711)
              "page-a" "%3Bx%5D" Hrange) as (_ & _ & Hvalue & _).
  exact Hvalue.
Defined.

(** C6, as the code has it.  Among pages that have the [id] property, a
    page whose first text segment cannot be read (no rich text, no
    segment, no plain text) is skipped: "oops" is printed, the page gets
    no record and so no entry in the index, and the listing goes on to
    the end.  A page whose segment has plain text is never skipped,
    whatever the text: the text after its first character is kept as it
    is, without being read as a number. *)
Theorem C6_unreadable_identity_skipped
    (pages : list NotionPage)
    (Hprop : Forall (fun page => is_Some (properties_id page)) pages) :
  (forall issues m,
      collectIssues pages issues m =
      {| out := Returned (issues ++ omap entryOf pages); idMap := m;
         emitted := concat (map oopsOf pages) |}) /\
  (forall page prop,
      properties_id page = Some prop -> readIssueNumber prop = None ->
      entryOf page = None /\ oopsOf page = [ConsoleLog "oops"]) /\
  (forall page prop segment rest text,
      properties_id page = Some prop ->
      rich_text prop = Some (segment :: rest) ->
      plain_text segment = Some text ->
      entryOf page = Some {| pageId := page_id page;
                             issueNumber := JS.String_slice 1 text |} /\
      oopsOf page = []) /\
  (forall handle,
      (forall page, In page pages -> page_id page = handle -> entryOf page = None) ->
      forall key, storeIssues (omap entryOf pages) ∅ !! key <> Some handle).
Proof.
  split; [|split; [|split]].
  - by apply collectIssues_all.
  - intros page prop Hp Hread. unfold oopsOf, entryOf. by rewrite Hp, Hread.
  - intros page prop segment rest text Hp Hrich Htext.
    unfold oopsOf, entryOf, readIssueNumber. by rewrite Hp, Hrich, Htext.
  - intros handle Hskipped key Hlook.
    apply storeIssues_lookup_Some in Hlook as (i & x & Hi & _ & Hx & _).
    apply list_elem_of_lookup_2, list_elem_of_omap in Hi as (page & Hin & Hentry).
    assert (page_id page = handle) as Hid.
    { unfold entryOf in Hentry. destruct (properties_id page); [|done].
      destruct (readIssueNumber _); [|done]. by simplify_eq. }
    apply list_elem_of_In in Hin.
    by rewrite (Hskipped page Hin Hid) in Hentry.
Qed.

Lemma C6_unreadable_identity_skipped_witness :
  collectIssues [notionPage "page-a" "#7"; blankPage "page-b";
                 notionPage "page-c" "#abc"] [] ∅ =
  {| out := Returned [ {| pageId := "page-a"; issueNumber := "7" |};
                       {| pageId := "page-c"; issueNumber := "abc" |} ];
     idMap := ∅; emitted := [ConsoleLog "oops"] |}.
Proof.
  assert (Forall (fun page => is_Some (properties_id page))
            [notionPage "page-a" "#7"; blankPage "page-b";
             notionPage "page-c" "#abc"]) as Hprop
    by (repeat constructor; by eexists).
  destruct (C6_unreadable_identity_skipped _ Hprop) as (Hall & _).
  rewrite Hall. reflexivity.
Defined.

(** The claim as the spec words it fails: text that is no integer does
    not make the lister skip the record.  The record is listed, nothing
    is logged for it, and the index files its handle under the text. *)
Lemma C6_counterexample :
  JS.decimalValue (JS.String_slice 1 "#abc") = None /\
  out (run (getIssuesFromNotionDatabase 1
              (storeWorld [notionPage "page-x" "#abc"])))
  = Returned [ {| pageId := "page-x"; issueNumber := "abc" |} ] /\
  emitted (run (setInitialGitLabToNotionIdMap 1
                  (storeWorld [notionPage "page-x" "#abc"])))
  = [ NotionDatabasesRetrieve; NotionDatabasesQuery None;
      ConsoleLog "1 issues successfully fetched from Notion." ] /\
  idMap (run (setInitialGitLabToNotionIdMap 1
                (storeWorld [notionPage "page-x" "#abc"]))) !! "abc"
  = Some "page-x".
Proof. repeat split; vm_compute; reflexivity. Qed.

(** A page without the [id] property is not skipped either: the read in
    front of the [try] throws, and the listing ends there. *)
Lemma missing_property_aborts :
  run (getIssuesFromNotionDatabase 1
         (storeWorld [barePage "page-y"; notionPage "page-z" "#7"]))
  = {| out := Thrown; idMap := ∅;
       emitted := [ NotionDatabasesRetrieve; NotionDatabasesQuery None;
                    ConsoleLog "2 issues successfully fetched from Notion." ] |}.
Proof. reflexivity. Qed.

(** C10. When two records of the lister's output carry the same
    localId, the index a run starts from maps that localId to the handle
    of the one that comes last; a lookup for an issue with that localId
    gets this handle, and the earlier record's handle (handles being
    unique) is the target of no update, whatever the issues. *)
Theorem C10_later_record_wins
    (fuel : nat) (w : World) (currentIssues : list NotionIssue) (n : N)
    (i j : nat) (earlier later : NotionIssue)
    (Hrun : out (run (getIssuesFromNotionDatabase fuel w)) = Returned currentIssues)
    (Hi : currentIssues !! i = Some earlier)
    (Hj : currentIssues !! j = Some later)
    (Hlt : i < j)
    (Hearlier : issueNumber earlier = JS.Number_toString n)
    (Hlater : issueNumber later = JS.Number_toString n)
    (Hlast : forall j' y, j < j' -> currentIssues !! j' = Some y ->
                          issueNumber y <> JS.Number_toString n)
    (Hhandles : NoDup (map pageId currentIssues)) :
  let index := idMap (run (setInitialGitLabToNotionIdMap fuel w)) in
  index !! JS.Number_toString n = Some (pageId later) /\
  (forall issue, iid issue = n -> lookupPageId index issue = Some (pageId later)) /\
  (forall issues u,
      In u (pagesToUpdate (getNotionOperations index issues)) ->
      u_pageId u <> pageId earlier).
Proof.
  intros index. unfold index. rewrite (setInitial_run _ _ _ Hrun). simpl.
  assert (storeIssues currentIssues ∅ !! JS.Number_toString n
          = Some (pageId later)) as Hindex.
  { apply (storeIssues_lookup_last _ _ _ j later); try done.
    apply toString_not_proto. }
  split; [done|]. split.
  - intros issue <-. exact Hindex.
  - intros issues u Hu Heq. rewrite getNotionOperations_spec in Hu. simpl in Hu.
    apply list_elem_of_In, list_elem_of_omap in Hu as (issue & _ & Hu).
    apply updateOf_Some in Hu as (_ & Hlook & _).
    apply storeIssues_lookup_Some in Hlook as (k & x & Hk & Hkey & Hx & Hafter).
    assert (k = i) as ->.
    { apply (NoDup_lookup _ k i (pageId earlier) Hhandles).
      - rewrite list_lookup_fmap, Hk. simpl. congruence.
      - by rewrite list_lookup_fmap, Hi. }
    simplify_eq. apply (Hafter j later Hlt Hj). congruence.
Qed.

Lemma C10_later_record_wins_witness :
  idMap (run (setInitialGitLabToNotionIdMap 1
                (storeWorld [notionPage "page-a" "#7"; notionPage "page-b" "#7"])))
    !! JS.Number_toString 7
  = Some "page-b".
Proof.
  assert (NoDup (map pageId [ {| pageId := "page-a"; issueNumber := "7" |};
                              {| pageId := "page-b"; issueNumber := "7" |} ]))
    as Hhandles.
  { simpl. apply NoDup_cons. split; [|apply NoDup_singleton].
    intros H. apply list_elem_of_singleton in H. discriminate H. }
  assert (forall j' y, 1 < j' ->
            [ {| pageId := "page-a"; issueNumber := "7" |};
              {| pageId := "page-b"; issueNumber := "7" |} ] !! j' = Some y ->
            issueNumber y <> JS.Number_toString 7) as Hlast.
  { intros j' y Hj' Hy. destruct j' as [|[|j']]; [lia|lia|discriminate Hy]. }
  assert (0 < 1) as Hlt by lia.
  destruct (C10_later_record_wins 1
              (storeWorld [notionPage "page-a" "#7"; notionPage "page-b" "#7"])
              [ {| pageId := "page-a"; issueNumber := "7" |};
                {| pageId := "page-b"; issueNumber := "7" |} ]
              7 0 1
              {| pageId := "page-a"; issueNumber := "7" |}
              {| pageId := "page-b"; issueNumber := "7" |}
              eq_refl eq_refl eq_refl Hlt eq_refl eq_refl Hlast Hhandles)
    as (Hwins & _).
  exact Hwins.
Defined.

End IdentityFacts.
(** ** Batched Writer (C1) and Taxonomy Sync (C7) *)

Module WriterFacts.
Import GitLab Effects Vocabulary Samples EffectFacts GitLabClient Sync.
Local Open Scope js_scope.

Section Chunk.
Context {A : Type}.
Implicit Types (l : list A) (n : nat).

Lemma chunk_loop_concat n : forall steps l,
  length l <= steps -> 1 <= n -> concat (JS.chunk_loop steps n l) = l.
Proof.
  induction steps as [|steps IH]; intros l Hlen Hn.
  - destruct l; [done|simpl in Hlen; lia].
  - destruct l as [|x l]; [done|].
    change (JS.chunk_loop (S steps) n (x :: l))
      with (take n (x :: l) :: JS.chunk_loop steps n (drop n (x :: l))).
    cbn [concat]. rewrite IH; [apply take_drop| |done].
    rewrite length_drop. simpl in *. lia.
Qed.

Lemma chunk_loop_lookup n : forall steps l i,
  length l <= steps -> 1 <= n ->
  JS.chunk_loop steps n l !! i =
  if decide (i * n < length l) then Some (take n (drop (i * n) l)) else None.
Proof.
  induction steps as [|steps IH]; intros l i Hlen Hn.
  - destruct l; [|simpl in Hlen; lia].
    case_decide as H; [simpl in H; lia|done].
  - destruct l as [|x l].
    { case_decide as H; [simpl in H; lia|done]. }
    change (JS.chunk_loop (S steps) n (x :: l))
      with (take n (x :: l) :: JS.chunk_loop steps n (drop n (x :: l))).
    destruct i as [|i].
    + case_decide as H; [by rewrite drop_0|]. simpl in H. lia.
    + cbn [lookup list_lookup]. rewrite IH; [| |done].
      2:{ rewrite length_drop. simpl in *. lia. }
      rewrite length_drop, drop_drop.
      replace (n + i * n) with (S i * n) by lia.
      repeat case_decide; try done; lia.
Qed.

Lemma chunk_concat l n : 1 <= n -> concat (JS.chunk l n) = l.
Proof.
  intros Hn. unfold JS.chunk. destruct (decide _); [lia|].
  by apply chunk_loop_concat.
Qed.

Lemma chunk_lookup l n i :
  1 <= n ->
  JS.chunk l n !! i =
  if decide (i * n < length l) then Some (take n (drop (i * n) l)) else None.
Proof.
  intros Hn. unfold JS.chunk. destruct (decide _); [lia|].
  by apply chunk_loop_lookup.
Qed.

End Chunk.

Section Batches.
Context {A : Type} (request : A -> event) (answer : A -> response unit).

Lemma startAll_run (batch : list A) m :
  startAll request answer batch m =
  {| out := Returned (map answer batch); idMap := m;
     emitted := map request batch |}.
Proof.
  induction batch as [|x batch IH]; [done|].
  cbn [startAll]. rewrite bind_emit.
  unfold bind at 1. rewrite IH. unfold after; simpl. by rewrite app_nil_r.
Qed.

Lemma forallb_resolved (batch : list A) :
  forallb resolved (map answer batch)
  = forallb (fun x => resolved (answer x)) batch.
Proof. induction batch as [|x batch IH]; [done|]. simpl. by rewrite IH. Qed.

Lemma processBatches_step batch rest m :
  processBatches request answer (batch :: rest) m =
  if forallb (fun x => resolved (answer x)) batch
  then after (batchEvents request batch) (processBatches request answer rest m)
  else {| out := Thrown; idMap := m; emitted := map request batch |}.
Proof.
  cbn [processBatches]. unfold bind at 1. rewrite startAll_run.
  cbn [out idMap emitted]. unfold awaitAll. rewrite forallb_resolved.
  destruct (forallb _ batch).
  - rewrite bind_ret. unfold console_log. rewrite bind_emit.
    unfold after, batchEvents; simpl. by rewrite <- app_assoc.
  - unfold bind, throw; simpl. by rewrite app_nil_r.
Qed.

Lemma processBatches_ok chunks m :
  forallb (fun x => resolved (answer x)) (concat chunks) = true ->
  processBatches request answer chunks m =
  {| out := Returned tt; idMap := m;
     emitted := concat (map (batchEvents request) chunks) |}.
Proof.
  induction chunks as [|batch rest IH]; intros Hall; [done|].
  simpl in Hall. rewrite forallb_app in Hall.
  apply andb_true_iff in Hall as [Hbatch Hrest].
  rewrite processBatches_step, Hbatch, IH by done. reflexivity.
Qed.

Lemma processBatches_fail pre batch post m :
  forallb (fun x => resolved (answer x)) (concat pre) = true ->
  forallb (fun x => resolved (answer x)) batch = false ->
  processBatches request answer (pre ++ batch :: post) m =
  {| out := Thrown; idMap := m;
     emitted := concat (map (batchEvents request) pre) ++ map request batch |}.
Proof.
  induction pre as [|first pre IH]; intros Hpre Hbatch.
  - cbn [app]. by rewrite processBatches_step, Hbatch.
  - simpl in Hpre. rewrite forallb_app in Hpre.
    apply andb_true_iff in Hpre as [Hfirst Hpre].
    cbn [app]. rewrite processBatches_step, Hfirst, IH by done.
    unfold after; simpl. by rewrite <- app_assoc.
Qed.

Lemma batchedWriter_chunks :
  batchedWriter
    (fun work => processBatches request answer (JS.chunk work OPERATION_BATCH_SIZE))
    request answer.
Proof.
  intros work m batches. unfold batches, OPERATION_BATCH_SIZE.
  split; [|split; [|split]].
  - apply chunk_concat. lia.
  - intros i. apply chunk_lookup. lia.
  - intros Hall. apply processBatches_ok. rewrite chunk_concat by lia. done.
  - intros pre batch post -> Hpre Hbatch. by apply processBatches_fail.
Qed.

End Batches.

Lemma chunk_23 {A} (work : list A) :
  length work = 23 ->
  JS.chunk work 10 =
  [take 10 work; take 10 (drop 10 work); take 10 (drop 20 work)].
Proof.
  intros Hlen. apply list_eq. intros i. rewrite chunk_lookup by lia.
  rewrite Hlen. destruct i as [|[|[|i]]]; case_decide; try lia; reflexivity.
Qed.

(** C1, as the code has it.  Both writers cut the work list into
    consecutive batches of 10 (the last one holding the rest) and take
    the batches one after the other: a batch's requests are all started,
    in order, before its outcome is looked at.  When every operation
    succeeds, every batch is started and reported.  When an operation of
    a batch fails, all requests of that batch have been started, but the
    writer throws there: that batch is not reported and no later batch is
    started.  For 23 items the batches have sizes 10, 10 and 3. *)
Theorem C1_batched_writer (w : World) :
  OPERATION_BATCH_SIZE = 10 /\
  batchedWriter (createPages w) createRequest (createAnswer w) /\
  batchedWriter (updatePages w) updateRequest (updateAnswer w) /\
  (forall work : list GitLabIssue,
      length work = 23 ->
      map length (JS.chunk work OPERATION_BATCH_SIZE) = [10; 10; 3]) /\
  (forall work : list PageToUpdate,
      length work = 23 ->
      map length (JS.chunk work OPERATION_BATCH_SIZE) = [10; 10; 3]).
Proof.
  split; [reflexivity|]. split; [|split; [|split]].
  - apply batchedWriter_chunks.
  - apply batchedWriter_chunks.
  - intros work Hlen. unfold OPERATION_BATCH_SIZE.
    rewrite (chunk_23 work Hlen). simpl.
    rewrite !length_take, !length_drop, Hlen. reflexivity.
  - intros work Hlen. unfold OPERATION_BATCH_SIZE.
    rewrite (chunk_23 work Hlen). simpl.
    rewrite !length_take, !length_drop, Hlen. reflexivity.
Qed.

Lemma C1_batched_writer_witness :
  createPages (refusingWorld "#14") work23 ∅ =
  {| out := Thrown; idMap := ∅;
     emitted :=
       batchEvents createRequest (take 10 work23)
       ++ map createRequest (take 10 (drop 10 work23)) |}.
Proof.
  destruct (C1_batched_writer (refusingWorld "#14")) as (_ & Hcreate & _).
  destruct (Hcreate work23 ∅) as (_ & _ & _ & Hfail).
  rewrite (Hfail [take 10 work23] (take 10 (drop 10 work23))
                 [take 10 (drop 20 work23)]).
  - reflexivity.
  - vm_compute. reflexivity.
  - vm_compute. reflexivity.
  - vm_compute. reflexivity.
Defined.

(** The claim as the spec words it fails: with 23 items and the 14th
    operation (the 4th of batch 2) refused, the writer throws; batch 2 is
    not reported and none of the three requests of batch 3 is made. *)
Lemma C1_counterexample :
  map length (JS.chunk work23 OPERATION_BATCH_SIZE) = [10; 10; 3] /\
  map (fun issue => resolved (createAnswer (refusingWorld "#14") issue)) work23
  = replicate 13 true ++ [false] ++ replicate 9 true /\
  out (run (createPages (refusingWorld "#14") work23)) = Thrown /\
  Forall (fun issue =>
            createRequest issue
            ∉ emitted (run (createPages (refusingWorld "#14") work23)))
         (drop 20 work23) /\
  (ConsoleLog "Completed batch size: 3"
   ∉ emitted (run (createPages (refusingWorld "#14") work23))) /\
  count_occ event_eq_dec
    (emitted (run (createPages (refusingWorld "#14") work23)))
    (ConsoleLog "Completed batch size: 10") = 1.
Proof.
  split; [by vm_compute|]. split; [by vm_compute|]. split; [by vm_compute|].
  split; [|split].
  - apply (bool_decide_unpack _). vm_compute. reflexivity.
  - apply (bool_decide_unpack _). vm_compute. reflexivity.
  - vm_compute. reflexivity.
Qed.

(** C7. Taxonomy Sync makes one option per label, in the labels' order;
    the option at position [i] carries the label's name and the colour
    at position [i mod |palette|] of the palette, whatever the label is.
    With a 3-colour palette three labels get the three colours in order
    and a fourth label gets the first colour again; the script's own
    palette has 10 colours, so there the 11th label is the first to
    reuse one. *)
Theorem C7_colors_by_position
    (w : World) (palette : list string) (labels : list GitLabLabel) :
  length (multiSelectOptions palette labels) = length labels /\
  (forall i, multiSelectOptions palette labels !! i =
             (fun l => {| option_name := label_name l;
                          option_color := palette !! (i mod length palette) |})
               <$> labels !! i) /\
  (forall labels' i o o',
      multiSelectOptions palette labels !! i = Some o ->
      multiSelectOptions palette labels' !! i = Some o' ->
      option_color o = option_color o') /\
  (forall m, emitted (updateMultiSelectOptions w labels m)
             = [NotionDatabasesUpdate (multiSelectOptions availableColors labels)]) /\
  (forall a b c,
      multiSelectOptions ["red"; "green"; "blue"] [a; b; c] =
      [ {| option_name := label_name a; option_color := Some "red" |};
        {| option_name := label_name b; option_color := Some "green" |};
        {| option_name := label_name c; option_color := Some "blue" |} ]) /\
  (forall a b c d,
      multiSelectOptions ["red"; "green"; "blue"] [a; b; c; d] !! 3 =
      Some {| option_name := label_name d; option_color := Some "red" |}) /\
  (length availableColors = 10 /\
   forall i l, labels !! i = Some l ->
     exists color,
       availableColors !! (i mod 10) = Some color /\
       multiSelectOptions availableColors labels !! i =
       Some {| option_name := label_name l; option_color := Some color |}).
Proof.
  assert (forall pal (ls : list GitLabLabel) i,
    multiSelectOptions pal ls !! i =
    (fun l => {| option_name := label_name l;
                 option_color := pal !! (i mod length pal) |}) <$> ls !! i)
    as Hlookup.
  { intros pal ls i. unfold multiSelectOptions. by rewrite list_lookup_imap. }
  split; [|split; [|split; [|split; [|split; [|split; [|split]]]]]].
  - unfold multiSelectOptions. apply length_imap.
  - apply Hlookup.
  - intros labels' i o o'. rewrite !Hlookup.
    destruct (labels !! i), (labels' !! i); simpl; try done.
    by intros [= <-] [= <-].
  - intros m. unfold updateMultiSelectOptions. rewrite emitted_bind. simpl.
    by destruct (databases_update w _).
  - reflexivity.
  - reflexivity.
  - reflexivity.
  - intros i l Hl.
    assert (i mod 10 < length availableColors) as Hlt
      by (change (length availableColors) with 10;
          apply Nat.mod_upper_bound; lia).
    apply lookup_lt_is_Some in Hlt as [color Hcolor].
    exists color. split; [done|].
    rewrite Hlookup, Hl. change (length availableColors) with 10.
    cbn [fmap option_fmap option_map]. by rewrite Hcolor.
Qed.

Lemma C7_colors_by_position_witness :
  option_color {| option_name := "a"; option_color := Some "red" |}
  = option_color {| option_name := "z"; option_color := Some "red" |}.
Proof.
  destruct (C7_colors_by_position quietWorld ["red"; "green"; "blue"] sampleLabels)
    as (_ & _ & Hposition & _).
  apply (Hposition [ {| label_name := "z" |} ] 0).
  - reflexivity.
  - reflexivity.
Defined.

End WriterFacts.
(** ** The order of a run (C8) *)

Module RunFacts.
Import GitLab Effects Vocabulary Samples EffectFacts GitLabClient Sync.
Local Open Scope js_scope.

(** *** Sorted lists *)

Section Sorted.
Context {A : Type} (R : A -> A -> Prop).

Lemma sorted_app l1 l2 :
  StronglySorted R l1 -> StronglySorted R l2 ->
  (forall x y, In x l1 -> In y l2 -> R x y) ->
  StronglySorted R (l1 ++ l2).
Proof.
  induction l1 as [|a l1 IH]; intros H1 H2 Hcross; [done|].
  apply StronglySorted_inv in H1 as [H1 Ha]. simpl. constructor.
  - apply IH; [done|done|]. intros x y Hx Hy. apply Hcross; [by right|done].
  - apply Forall_app. split; [done|].
    apply Forall_forall. intros y Hy. apply Hcross; [by left|].
    by apply list_elem_of_In.
Qed.

Lemma sorted_app_r l1 l2 :
  StronglySorted R (l1 ++ l2) -> StronglySorted R l2.
Proof.
  induction l1 as [|a l1 IH]; [done|]. simpl. intros H.
  apply StronglySorted_inv in H as [H _]. by apply IH.
Qed.

End Sorted.

Lemma calls_app tr1 tr2 : calls (tr1 ++ tr2) = calls tr1 ++ calls tr2.
Proof. apply List.filter_app. Qed.

Lemma in_calls e tr : In e (calls tr) <-> In e tr /\ isCall e = true.
Proof. apply filter_In. Qed.

Lemma same_stage_inOrder s tr :
  Forall (fun e => isCall e = true -> stage e = s) tr -> inOrder tr.
Proof.
  unfold inOrder. induction 1 as [|e tr He H IH]; [constructor|].
  unfold calls in *. simpl. destruct (isCall e) eqn:Ecall; [|done].
  constructor; [done|]. apply Forall_forall. intros e' Hin.
  apply list_elem_of_In, filter_In in Hin as [Hin Hcall'].
  rewrite Forall_forall in H. apply list_elem_of_In in Hin.
  rewrite (He eq_refl), (H e' Hin Hcall'). done.
Qed.

(** After a call, only calls of the same or a later stage follow. *)
Lemma inOrder_split pre e post :
  inOrder (pre ++ e :: post) -> isCall e = true ->
  Forall (fun e' => isCall e' = true -> stage e <= stage e') post.
Proof.
  unfold inOrder. rewrite calls_app. intros H Hcall.
  apply sorted_app_r in H. unfold calls in H. simpl in H. rewrite Hcall in H.
  apply StronglySorted_inv in H as [_ H]. rewrite Forall_forall in H.
  apply Forall_forall. intros e' Hin Hcall'. apply H.
  apply list_elem_of_In, filter_In. split; [by apply list_elem_of_In|done].
Qed.

(** *** Stages of the parts of the script *)

Lemma phase_ret {A} s (a : A) : phase s (ret a).
Proof. intros m. constructor. Qed.

Lemma phase_throw {A} s : phase s (@throw A).
Proof. intros m. constructor. Qed.

Lemma phase_outOfFuel {A} s : phase s (@outOfFuel A).
Proof. intros m. constructor. Qed.

Lemma phase_await {A} s (p : response A) : phase s (await p).
Proof. destruct p; intros m; constructor. Qed.

Lemma phase_readIdMap s : phase s readIdMap.
Proof. intros m. constructor. Qed.

Lemma phase_writeIdMap s m' : phase s (writeIdMap m').
Proof. intros m. constructor. Qed.

Lemma phase_log s line : phase s (console_log line).
Proof. intros m. repeat constructor. done. Qed.

Lemma phase_emit e : phase (stage e) (emit e).
Proof. intros m. repeat constructor. Qed.

Lemma phase_bind {A B} s (c : M A) (k : A -> M B) :
  phase s c -> (forall a, phase s (k a)) -> phase s (bind c k).
Proof.
  intros Hc Hk m. rewrite emitted_bind. apply Forall_app. split; [apply Hc|].
  destruct (out (c m)); [apply Hk|constructor|constructor].
Qed.

Create HintDb phase.

#[global] Hint Resolve phase_ret phase_throw phase_outOfFuel phase_await
  phase_readIdMap phase_writeIdMap phase_log : phase.

Lemma staged_of_phase {A} s (c : M A) : phase s c -> staged s c.
Proof.
  intros Hc m. split; [by apply (same_stage_inOrder s)|].
  eapply Forall_impl; [apply Hc|]. simpl. intros e He Hcall.
  rewrite (He Hcall). done.
Qed.

Lemma staged_bind {A B} s s' (c : M A) (k : A -> M B) :
  s <= s' -> phase s c -> (forall a, staged s' (k a)) -> staged s (bind c k).
Proof.
  intros Hle Hc Hk m. rewrite emitted_bind. specialize (Hc m).
  assert (inOrder (emitted (c m))) as Hsorted by by apply (same_stage_inOrder s).
  assert (Forall (fun e => isCall e = true -> s <= stage e) (emitted (c m)))
    as Hlow.
  { eapply Forall_impl; [apply Hc|]. simpl. intros e He Hcall.
    rewrite (He Hcall). done. }
  destruct (out (c m)) as [a| |]; rewrite ?app_nil_r; [|done|done].
  destruct (Hk a (idMap (c m))) as [Hsorted' Hlow']. split.
  - unfold inOrder. rewrite calls_app. apply sorted_app; [done|done|].
    intros x y Hx Hy. apply in_calls in Hx as [Hx Hxc], Hy as [Hy Hyc].
    rewrite Forall_forall in Hc, Hlow'. apply list_elem_of_In in Hx, Hy.
    rewrite (Hc x Hx Hxc). specialize (Hlow' y Hy Hyc). lia.
  - apply Forall_app. split; [done|].
    eapply Forall_impl; [apply Hlow'|]. simpl. intros e He Hcall.
    specialize (He Hcall). lia.
Qed.

Lemma issuesLoop_phase fuel w : forall issues page,
  phase 2 (issuesLoop fuel w issues page).
Proof.
  induction fuel as [|fuel IH]; intros issues page; simpl; [auto with phase|].
  apply phase_bind; [apply (phase_emit (GitLabIssuesRequest _ _))|]. intros _.
  apply phase_bind; [auto with phase|]. intros data.
  case_decide; [apply IH|auto with phase].
Qed.

Lemma queryLoop_phase fuel w : forall pages cursor,
  phase 1 (queryLoop fuel w pages cursor).
Proof.
  induction fuel as [|fuel IH]; intros pages cursor; simpl; [auto with phase|].
  apply phase_bind; [apply (phase_emit (NotionDatabasesQuery _))|]. intros _.
  apply phase_bind; [auto with phase|]. intros r.
  destruct (negb _); [auto with phase|apply IH].
Qed.

Lemma collectIssues_phase s pages : forall issues,
  phase s (collectIssues pages issues).
Proof.
  induction pages as [|page pages IH]; intros issues; simpl; [auto with phase|].
  destruct (properties_id page) as [prop|]; [|auto with phase].
  destruct (readIssueNumber prop); [apply IH|].
  apply phase_bind; [auto with phase|]. intros _. apply IH.
Qed.

Lemma setInitial_phase fuel w : phase 1 (setInitialGitLabToNotionIdMap fuel w).
Proof.
  unfold setInitialGitLabToNotionIdMap, getIssuesFromNotionDatabase.
  apply phase_bind.
  - apply phase_bind; [apply (phase_emit NotionDatabasesRetrieve)|]. intros _.
    apply phase_bind; [auto with phase|]. intros _.
    apply phase_bind; [apply queryLoop_phase|]. intros pages.
    apply phase_bind; [auto with phase|]. intros _. apply collectIssues_phase.
  - intros currentIssues. apply phase_bind; auto with phase.
Qed.

Lemma labels_phase w : phase 3 (getGitLabLabelsForProject w).
Proof.
  apply phase_bind; [apply (phase_emit GitLabLabelsRequest)|]. auto with phase.
Qed.

Lemma updateMultiSelectOptions_phase w labels :
  phase 4 (updateMultiSelectOptions w labels).
Proof.
  apply phase_bind; [apply (phase_emit (NotionDatabasesUpdate _))|].
  auto with phase.
Qed.

Lemma processBatches_phase {A} s (request : A -> event) answer chunks :
  (forall x, stage (request x) = s) ->
  phase s (processBatches request answer chunks).
Proof.
  intros Hs. induction chunks as [|batch rest IH]; simpl; [auto with phase|].
  apply phase_bind.
  - induction batch as [|x batch IHb]; simpl; [auto with phase|].
    apply phase_bind; [rewrite <- (Hs x); apply phase_emit|]. intros _.
    apply phase_bind; [apply IHb|]. auto with phase.
  - intros promises. apply phase_bind.
    + unfold awaitAll. destruct (forallb _ _); auto with phase.
    + intros _. apply phase_bind; [auto with phase|]. intros _. apply IH.
Qed.

Lemma createPages_phase w work : phase 5 (createPages w work).
Proof. by apply processBatches_phase. Qed.

Lemma updatePages_phase w work : phase 6 (updatePages w work).
Proof. by apply processBatches_phase. Qed.

Lemma main_staged fuel w : staged 1 (main fuel w).
Proof.
  unfold main, syncNotionDatabaseWithGitLab.
  apply (staged_bind 1 2); [lia|apply setInitial_phase|]. intros _.
  apply (staged_bind 2 2); [lia|auto with phase|]. intros _.
  apply (staged_bind 2 3); [lia|apply issuesLoop_phase|]. intros issues.
  apply (staged_bind 3 3); [lia|auto with phase|]. intros _.
  apply (staged_bind 3 4); [lia|apply labels_phase|]. intros labels.
  apply (staged_bind 4 4); [lia|auto with phase|]. intros _.
  apply (staged_bind 4 5); [lia|apply updateMultiSelectOptions_phase|]. intros _.
  apply (staged_bind 5 5); [lia|auto with phase|]. intros m.
  apply (staged_bind 5 5); [lia|auto with phase|]. intros _.
  apply (staged_bind 5 6); [lia|apply createPages_phase|]. intros _.
  apply (staged_bind 6 6); [lia|auto with phase|]. intros _.
  apply (staged_bind 6 6); [lia|apply updatePages_phase|]. intros _.
  apply staged_of_phase. auto with phase.
Qed.

(** *** Writes come after the tag options are in place *)

Lemma isWrite_stage e : isWrite e = true -> isCall e = true /\ 5 <= stage e.
Proof. destruct e; simpl; try done; intros _; split; (done || lia). Qed.

(** A write found in the trace of [bind c k], where [c] only makes calls
    of an earlier stage: [c] returned and the write is the continuation's. *)
Lemma bind_skip {A B} (c : M A) (k : A -> M B) m s e :
  phase s c -> s < 5 ->
  In e (emitted (bind c k m)) -> isWrite e = true ->
  exists a,
    out (c m) = Returned a /\
    In e (emitted (k a (idMap (c m)))) /\
    (forall ev, In ev (emitted (k a (idMap (c m)))) ->
                In ev (emitted (bind c k m))).
Proof.
  intros Hc Hs Hin Hwrite. rewrite emitted_bind in Hin |- *.
  apply isWrite_stage in Hwrite as [Hcall Hstage].
  apply in_app_or in Hin as [Hin|Hin].
  - specialize (Hc m). rewrite Forall_forall in Hc.
    apply list_elem_of_In in Hin. specialize (Hc e Hin Hcall). lia.
  - destruct (out (c m)) as [a| |]; [|done|done].
    exists a. split; [done|]. split; [done|].
    intros ev Hev. apply in_or_app. by right.
Qed.

Lemma updateMultiSelectOptions_returned w labels m a :
  out (updateMultiSelectOptions w labels m) = Returned a ->
  databases_update w (multiSelectOptions availableColors labels) = Resolves tt /\
  In (NotionDatabasesUpdate (multiSelectOptions availableColors labels))
     (emitted (updateMultiSelectOptions w labels m)).
Proof.
  unfold updateMultiSelectOptions. rewrite bind_emit.
  destruct (databases_update w _) as [[]|] eqn:E; [|done].
  intros _. split; [done|]. simpl. by left.
Qed.

Lemma main_taxonomy_first fuel w e :
  In e (emitted (run (main fuel w))) -> isWrite e = true ->
  exists options,
    In (NotionDatabasesUpdate options) (emitted (run (main fuel w))) /\
    databases_update w options = Resolves tt.
Proof.
  unfold run, main, syncNotionDatabaseWithGitLab. intros Hin Hwrite.
  eapply bind_skip in Hin as (? & _ & Hin & Hback0);
    [|apply setInitial_phase|lia|done].
  eapply bind_skip in Hin as (? & _ & Hin & Hback1);
    [|apply (phase_log 0)|lia|done].
  eapply bind_skip in Hin as (issues & _ & Hin & Hback2);
    [|apply issuesLoop_phase|lia|done].
  eapply bind_skip in Hin as (? & _ & Hin & Hback3);
    [|apply (phase_log 0)|lia|done].
  eapply bind_skip in Hin as (labels & _ & Hin & Hback4);
    [|apply labels_phase|lia|done].
  eapply bind_skip in Hin as (? & _ & Hin & Hback5);
    [|apply (phase_log 0)|lia|done].
  pose proof Hin as Hin'.
  eapply bind_skip in Hin' as (? & Hout & _ & _);
    [|apply updateMultiSelectOptions_phase|lia|done].
  apply updateMultiSelectOptions_returned in Hout as [Hdone Hevent].
  exists (multiSelectOptions availableColors labels). split; [|done].
  apply Hback0, Hback1, Hback2, Hback3, Hback4, Hback5.
  rewrite emitted_bind. apply in_or_app. by left.
Qed.

(** The small run goes through all the stages. *)
Lemma smallWorld_run :
  out (run (main 1 smallWorld)) = Returned tt /\
  map stage (calls (emitted (run (main 1 smallWorld)))) = [1; 1; 2; 3; 4; 5; 6].
Proof. split; vm_compute; reflexivity. Qed.

End RunFacts.
(** ** Source Lister: filter, failure, endless listing *)

Module ListerMore.
Import GitLab Effects Vocabulary Samples EffectFacts GitLabClient Sync.
Import ListerFacts.
Local Open Scope js_scope.

(** One turn of the loop, whatever the tracker answers. *)
Lemma issuesLoop_unfold fuel w issues page m :
  issuesLoop (S fuel) w issues page m =
  after [GitLabIssuesRequest page pageSize]
    match gitlab_issues w page with
    | Resolves data =>
        if decide (length data = pageSize)
        then issuesLoop fuel w (issues ++ List.filter assignedToJan data) (page + 1) m
        else ret (issues ++ List.filter assignedToJan data) m
    | Rejects => throw m
    end.
Proof.
  cbn [issuesLoop]. rewrite bind_emit.
  destruct (gitlab_issues w page) as [data|]; [|reflexivity].
  rewrite bind_await_resolves. by destruct (decide _).
Qed.

Lemma issuesLoop_sound fuel w : forall issues page m result,
  out (issuesLoop fuel w issues page m) = Returned result ->
  exists extra,
    result = issues ++ extra /\
    Forall (fun issue =>
              assignedToJan issue = true /\
              exists p data,
                In (GitLabIssuesRequest p pageSize)
                   (emitted (issuesLoop fuel w issues page m)) /\
                gitlab_issues w p = Resolves data /\ In issue data)
           extra.
Proof.
  induction fuel as [|fuel IH]; intros issues page m result Hout; [done|].
  rewrite issuesLoop_unfold in Hout |- *.
  destruct (gitlab_issues w page) as [data|] eqn:Hpage; [|done].
  assert (Forall (fun issue =>
            assignedToJan issue = true /\
            exists p data0,
              (GitLabIssuesRequest page pageSize = GitLabIssuesRequest p pageSize) /\
              gitlab_issues w p = Resolves data0 /\ In issue data0)
          (List.filter assignedToJan data)) as Hhere.
  { apply Forall_forall. intros issue Hin.
    apply list_elem_of_In, filter_In in Hin as [Hin Hok].
    split; [done|]. by exists page, data. }
  destruct (decide _) as [E|E].
  - simpl in Hout. destruct (IH _ _ _ _ Hout) as (extra & -> & Hextra).
    exists (List.filter assignedToJan data ++ extra).
    split; [by rewrite app_assoc|]. apply Forall_app. split.
    + eapply Forall_impl; [exact Hhere|]. simpl.
      intros issue (Hok & p & d & Hev & Hp & Hin). split; [done|].
      exists p, d. split; [by left|done].
    + eapply Forall_impl; [exact Hextra|]. simpl.
      intros issue (Hok & p & d & Hev & Hp & Hin). split; [done|].
      exists p, d. split; [by right|done].
  - simpl in Hout. injection Hout as <-.
    exists (List.filter assignedToJan data). split; [done|].
    eapply Forall_impl; [exact Hhere|]. simpl.
    intros issue (Hok & p & d & Hev & Hp & Hin). split; [done|].
    exists p, d. split; [by left|done].
Qed.

(** X1. Whatever the tracker answers, every issue the Source Lister
    returns is assigned to the configured name and was on a page the
    lister asked for; an issue without a matching assignee is never
    returned. *)
Theorem lister_filter_sound (fuel : nat) (w : World) (m : gmap string string)
    (result : list GitLabIssue)
    (Hout : out (getGitLabIssuesForRepository fuel w m) = Returned result) :
  Forall (fun issue =>
            assignedToJan issue = true /\
            exists p data,
              In (GitLabIssuesRequest p pageSize)
                 (emitted (getGitLabIssuesForRepository fuel w m)) /\
              gitlab_issues w p = Resolves data /\ In issue data)
         result /\
  (forall issue, assignedToJan issue = false -> ~ In issue result).
Proof.
  unfold getGitLabIssuesForRepository in *.
  destruct (issuesLoop_sound _ _ _ _ _ _ Hout) as (extra & -> & Hextra).
  simpl. split; [done|]. intros issue Hno Hin.
  rewrite Forall_forall in Hextra. apply list_elem_of_In in Hin.
  destruct (Hextra issue Hin) as [Hyes _]. congruence.
Qed.

Lemma lister_filter_sound_witness :
  ~ In (sampleIssue "Ada Lovelace" 2)
       [sampleIssue "Jan Strich" 1; sampleIssue "Jan Strich" 3].
Proof.
  assert (out (getGitLabIssuesForRepository 1 mixedWorld ∅)
          = Returned [sampleIssue "Jan Strich" 1; sampleIssue "Jan Strich" 3])
    as Hout by reflexivity.
  destruct (lister_filter_sound 1 mixedWorld ∅ _ Hout) as (_ & Hnever).
  apply Hnever. reflexivity.
Defined.

Lemma issuesLoop_rejected w pages k : forall fuel issues page m,
  (forall i, i < k ->
     gitlab_issues w (page + i) = Resolves (pages (page + i)) /\
     length (pages (page + i)) = pageSize) ->
  gitlab_issues w (page + k) = Rejects ->
  k < fuel ->
  issuesLoop fuel w issues page m =
  {| out := Thrown; idMap := m; emitted := pageRequests page (S k) |}.
Proof.
  induction k as [|k IH]; intros fuel issues page m Hfull Hrej Hfuel.
  - destruct fuel as [|fuel]; [lia|]. rewrite issuesLoop_unfold.
    rewrite Nat.add_0_r in Hrej. by rewrite Hrej.
  - destruct fuel as [|fuel]; [lia|]. rewrite issuesLoop_unfold.
    destruct (Hfull 0) as [Hpage Hlen]; [lia|]. rewrite Nat.add_0_r in Hpage, Hlen.
    rewrite Hpage. destruct (decide _) as [_|E]; [|done].
    rewrite (IH fuel _ (page + 1) m).
    + unfold after, pageRequests; simpl.
      by replace (page + 1) with (S page) by lia.
    + intros i Hi. replace (page + 1 + i) with (page + S i) by lia.
      apply Hfull. lia.
    + by replace (page + 1 + k) with (page + S k) by lia.
    + lia.
Qed.

(** X2. When the request for a page fails after [k] full pages, the
    Source Lister throws after [k + 1] requests and what it had collected
    is lost; the sync stops there, having printed its first line and made
    those requests only: no label request, no tag options, no write. *)
Theorem lister_transport_failure
    (w : World) (pages : nat -> list GitLabIssue) (k : nat)
    (Hfull : forall p, 1 <= p <= k ->
               gitlab_issues w p = Resolves (pages p) /\
               length (pages p) = pageSize)
    (Hrej : gitlab_issues w (S k) = Rejects) :
  forall fuel m, k < fuel ->
    getGitLabIssuesForRepository fuel w m =
    {| out := Thrown; idMap := m; emitted := pageRequests 1 (S k) |} /\
    syncNotionDatabaseWithGitLab fuel w m =
    {| out := Thrown; idMap := m;
       emitted := ConsoleLog (nl +:+ "Fetching issues from GitLab repository...")
                  :: pageRequests 1 (S k) |}.
Proof.
  intros fuel m Hfuel.
  assert (getGitLabIssuesForRepository fuel w m =
          {| out := Thrown; idMap := m; emitted := pageRequests 1 (S k) |}) as Hlist.
  { unfold getGitLabIssuesForRepository.
    apply (issuesLoop_rejected w pages k); [|done|done].
    intros i Hi. apply Hfull. lia. }
  split; [done|].
  unfold syncNotionDatabaseWithGitLab, console_log. rewrite bind_emit.
  rewrite bind_thrown by (by rewrite Hlist). by rewrite Hlist.
Qed.

Lemma lister_transport_failure_witness :
  out (syncNotionDatabaseWithGitLab 5 brokenWorld ∅) = Thrown.
Proof.
  assert (forall p, 1 <= p <= 1 ->
            gitlab_issues brokenWorld p = Resolves (endlessPages p) /\
            length (endlessPages p) = pageSize) as Hfull.
  { intros p Hp. assert (p = 1) as -> by lia. split; reflexivity. }
  assert (1 < 5) as Hfuel by lia.
  destruct (lister_transport_failure brokenWorld endlessPages 1 Hfull eq_refl
              5 ∅ Hfuel) as (_ & Hsync).
  rewrite Hsync. reflexivity.
Defined.

Lemma issuesLoop_endless (w : World)
    (Hfull : forall p, 1 <= p ->
               exists data, gitlab_issues w p = Resolves data /\
                            length data = pageSize) :
  forall fuel page issues m, 1 <= page ->
    out (issuesLoop fuel w issues page m) = OutOfFuel /\
    emitted (issuesLoop fuel w issues page m) = pageRequests page fuel.
Proof.
  induction fuel as [|fuel IH]; intros page issues m Hpage; [done|].
  rewrite issuesLoop_unfold.
  destruct (Hfull page Hpage) as (data & -> & Hlen).
  destruct (decide _) as [_|E]; [|done].
  destruct (IH (page + 1) (issues ++ List.filter assignedToJan data) m)
    as [Hout Hem]; [lia|].
  split; [done|]. unfold after. cbn [emitted]. rewrite Hem.
  unfold pageRequests. cbn [seq map app].
  by replace (page + 1) with (S page) by lia.
Qed.

(** X3. A non-full page is the loop's only way out: against a tracker
    whose every page is full the Source Lister never returns; whatever
    the budget, it has used it all on requests for pages 1, 2, 3, ... *)
Theorem lister_endless_on_full_pages (w : World)
    (Hfull : forall p, 1 <= p ->
               exists data, gitlab_issues w p = Resolves data /\
                            length data = pageSize) :
  forall fuel m,
    out (getGitLabIssuesForRepository fuel w m) = OutOfFuel /\
    emitted (getGitLabIssuesForRepository fuel w m) = pageRequests 1 fuel.
Proof.
  intros fuel m. unfold getGitLabIssuesForRepository.
  apply issuesLoop_endless; [done|lia].
Qed.

Lemma lister_endless_on_full_pages_witness :
  out (getGitLabIssuesForRepository 4 (pagedWorld endlessPages) ∅) = OutOfFuel.
Proof.
  assert (forall p, 1 <= p ->
            exists data, gitlab_issues (pagedWorld endlessPages) p = Resolves data /\
                         length data = pageSize) as Hfull.
  { intros p _. exists (endlessPages p). split; [reflexivity|].
    unfold endlessPages. by rewrite length_map, length_seq. }
  destruct (lister_endless_on_full_pages (pagedWorld endlessPages) Hfull 4 ∅)
    as (Hout & _).
  exact Hout.
Defined.

End ListerMore.
(** ** Destination Lister: the cursor loop, pages without the property *)

Module DestinationMore.
Import GitLab Effects Vocabulary Samples EffectFacts GitLabClient Sync.
Import IndexFacts RunFacts.
Local Open Scope js_scope.

Lemma queryLoop_unfold fuel w pages cursor m :
  queryLoop (S fuel) w pages cursor m =
  after [NotionDatabasesQuery cursor]
    match databases_query w cursor with
    | Resolves r =>
        if negb (JS.truthy (next_cursor r))
        then ret (pages ++ results r) m
        else queryLoop fuel w (pages ++ results r) (next_cursor r) m
    | Rejects => throw m
    end.
Proof.
  cbn [queryLoop]. rewrite bind_emit.
  destruct (databases_query w cursor) as [r|]; [|reflexivity].
  rewrite bind_await_resolves. by destruct (negb _).
Qed.

Lemma queryLoop_chain w (responses : list QueryResponse) :
  forall fuel pages cursor m,
    cursorChain w cursor responses ->
    length responses <= fuel ->
    queryLoop fuel w pages cursor m =
    {| out := Returned (pages ++ concat (map results responses)); idMap := m;
       emitted := map NotionDatabasesQuery (cursorsAsked cursor responses) |}.
Proof.
  induction responses as [|r rest IH]; intros fuel pages cursor m Hchain Hfuel;
    [done|].
  destruct fuel as [|fuel]; [simpl in Hfuel; lia|].
  destruct Hchain as [Hquery Hrest]. rewrite queryLoop_unfold, Hquery.
  destruct rest as [|r' rest].
  - rewrite Hrest. unfold after, ret; simpl. by rewrite app_nil_r.
  - destruct Hrest as [Hnext Hrest]. rewrite Hnext. cbn [negb].
    rewrite (IH fuel _ _ m Hrest) by (simpl in *; lia).
    unfold after. cbn [out idMap emitted cursorsAsked map concat app].
    by rewrite <- app_assoc.
Qed.

(** X4. The Destination Lister follows the cursors the store hands out:
    it asks first without a cursor, then with each next cursor in turn,
    and stops at the first response without one (or with an empty one);
    the pages of all responses are collected in order.  When the
    database can be retrieved and every page has the [id] property, the
    lister as a whole then returns one record per readable page, having
    printed the number of pages and one "oops" per unreadable page. *)
Theorem destination_cursor_chain
    (w : World) (responses : list QueryResponse)
    (Hchain : cursorChain w None responses) :
  forall fuel m, length responses <= fuel ->
    queryLoop fuel w [] None m =
    {| out := Returned (concat (map results responses)); idMap := m;
       emitted := map NotionDatabasesQuery (cursorsAsked None responses) |} /\
    (databases_retrieve w = Resolves tt ->
     Forall (fun page => is_Some (properties_id page))
            (concat (map results responses)) ->
     getIssuesFromNotionDatabase fuel w m =
     {| out := Returned (omap entryOf (concat (map results responses)));
        idMap := m;
        emitted :=
          NotionDatabasesRetrieve
          :: map NotionDatabasesQuery (cursorsAsked None responses)
          ++ ConsoleLog (count (concat (map results responses))
                         +:+ " issues successfully fetched from Notion.")
          :: concat (map oopsOf (concat (map results responses))) |}).
Proof.
  intros fuel m Hfuel.
  assert (queryLoop fuel w [] None m =
    {| out := Returned (concat (map results responses)); idMap := m;
       emitted := map NotionDatabasesQuery (cursorsAsked None responses) |})
    as Hloop by (by rewrite (queryLoop_chain w responses)).
  split; [done|]. intros Hretrieve Hprop.
  unfold getIssuesFromNotionDatabase. rewrite bind_emit, Hretrieve.
  rewrite bind_await_resolves.
  rewrite (bind_returned _ _ _ (concat (map results responses)))
    by (by rewrite Hloop).
  rewrite Hloop. cbn [out idMap emitted]. unfold console_log.
  rewrite bind_emit, (collectIssues_all _ Hprop).
  unfold after; simpl. reflexivity.
Qed.

Lemma destination_cursor_chain_witness :
  out (getIssuesFromNotionDatabase 2 chainWorld ∅)
  = Returned [ {| pageId := "page-a"; issueNumber := "1" |};
               {| pageId := "page-c"; issueNumber := "3" |} ].
Proof.
  assert (cursorChain chainWorld None [firstResponse; lastResponse]) as Hchain
    by (repeat split; reflexivity).
  assert (length [firstResponse; lastResponse] <= 2) as Hfuel by (simpl; lia).
  destruct (destination_cursor_chain chainWorld [firstResponse; lastResponse]
              Hchain 2 ∅ Hfuel) as (_ & Hlister).
  rewrite Hlister.
  - reflexivity.
  - reflexivity.
  - repeat constructor; by eexists.
Defined.

Lemma collectIssues_missing pages :
  Exists (fun page => properties_id page = None) pages ->
  forall issues m, out (collectIssues pages issues m) = Thrown.
Proof.
  induction pages as [|page pages IH]; intros Hmissing issues m.
  - by apply Exists_nil in Hmissing.
  - cbn [collectIssues]. destruct (properties_id page) as [prop|] eqn:Hprop;
      [|reflexivity].
    apply Exists_cons in Hmissing as [Hhere|Hlater]; [congruence|].
    destruct (readIssueNumber prop); [by apply IH|].
    unfold console_log. rewrite bind_emit. simpl. by apply IH.
Qed.

Lemma collectIssues_stops pre page post :
  Forall (fun page => is_Some (properties_id page)) pre ->
  properties_id page = None ->
  forall issues m,
    collectIssues (pre ++ page :: post) issues m =
    {| out := Thrown; idMap := m; emitted := concat (map oopsOf pre) |}.
Proof.
  induction 1 as [|first pre [prop Hprop] _ IH]; intros Hnone issues m.
  - simpl. by rewrite Hnone.
  - assert (entryOf first =
            match readIssueNumber prop with
            | Some number => Some {| pageId := page_id first; issueNumber := number |}
            | None => None
            end) as Hentry by (unfold entryOf; by rewrite Hprop).
    cbn [app collectIssues map concat]. unfold oopsOf at 1.
    rewrite Hentry, Hprop. destruct (readIssueNumber prop).
    + by rewrite IH.
    + unfold console_log. by rewrite bind_emit, IH.
Qed.

(** X5. A page without the [id] property stops the Destination Lister
    at that page: it throws, whatever pages follow.  The run ends there
    with an empty index: it has made no call beyond the index stage, so
    nothing was fetched from the tracker and nothing written. *)
Theorem destination_missing_property_aborts
    (fuel : nat) (w : World) (pages : list NotionPage)
    (Hquery : out (queryLoop fuel w [] None ∅) = Returned pages)
    (Hmissing : Exists (fun page => properties_id page = None) pages) :
  (forall pre page post,
      pages = pre ++ page :: post ->
      Forall (fun page => is_Some (properties_id page)) pre ->
      properties_id page = None ->
      forall issues m,
        collectIssues pages issues m =
        {| out := Thrown; idMap := m; emitted := concat (map oopsOf pre) |}) /\
  out (run (main fuel w)) = Thrown /\
  idMap (run (main fuel w)) = ∅ /\
  Forall (fun e => isCall e = true -> stage e = 1) (emitted (run (main fuel w))).
Proof.
  split.
  { intros pre page post -> Hpre Hnone issues m. by apply collectIssues_stops. }
  assert (out (getIssuesFromNotionDatabase fuel w ∅) = Thrown) as Hlister.
  { unfold getIssuesFromNotionDatabase. rewrite bind_emit.
    destruct (databases_retrieve w) as [[]|]; [|reflexivity].
    rewrite bind_await_resolves, (bind_returned _ _ _ _ Hquery).
    unfold console_log. rewrite bind_emit. simpl.
    by apply collectIssues_missing. }
  assert (out (setInitialGitLabToNotionIdMap fuel w ∅) = Thrown /\
          idMap (setInitialGitLabToNotionIdMap fuel w ∅) = ∅) as [Hout Hmap].
  { unfold setInitialGitLabToNotionIdMap. rewrite bind_thrown by done.
    split; [done|]. apply (getIssuesFromNotionDatabase_readonly fuel w ∅). }
  assert (run (main fuel w) =
          {| out := Thrown; idMap := ∅;
             emitted := emitted (setInitialGitLabToNotionIdMap fuel w ∅) |})
    as Hrun.
  { unfold run, main. rewrite bind_thrown by done. by rewrite Hmap. }
  rewrite Hrun. repeat split. apply setInitial_phase.
Qed.

Lemma destination_missing_property_aborts_witness :
  out (run (main 1 (storeWorld [notionPage "page-a" "#1"; barePage "page-b";
                                notionPage "page-c" "#3"]))) = Thrown.
Proof.
  assert (Exists (fun page => properties_id page = None)
            [notionPage "page-a" "#1"; barePage "page-b";
             notionPage "page-c" "#3"]) as Hmissing
    by (apply Exists_cons_tl, Exists_cons_hd; reflexivity).
  destruct (destination_missing_property_aborts 1
              (storeWorld [notionPage "page-a" "#1"; barePage "page-b";
                           notionPage "page-c" "#3"])
              _ eq_refl Hmissing) as (_ & Hout & _).
  exact Hout.
Defined.

Lemma entries_and_oops (pages : list NotionPage) :
  length (omap entryOf pages) + length (concat (map oopsOf pages))
  = length pages.
Proof.
  induction pages as [|page pages IH]; [done|].
  cbn [omap list_omap map concat]. unfold oopsOf at 1.
  destruct (entryOf page); rewrite ?length_app; simpl; lia.
Qed.

Lemma entries_handles (pages : list NotionPage) :
  map pageId (omap entryOf pages) `sublist_of` map page_id pages.
Proof.
  induction pages as [|page pages IH]; [constructor|].
  cbn [omap list_omap map]. destruct (entryOf page) as [entry|] eqn:Hentry.
  - assert (pageId entry = page_id page) as Hid.
    { unfold entryOf in Hentry. destruct (properties_id page); [|done].
      destruct (readIssueNumber _); [|done]. by simplify_eq. }
    simpl. rewrite Hid. by constructor.
  - by constructor.
Qed.

(** X6. When every page has the [id] property the Destination Lister
    accounts for each page exactly once: a page is either listed or
    answered with an "oops" line, so records and lines together are as
    many as the pages; the records carry the pages' own handles, in the
    pages' order. *)
Theorem destination_listed_or_logged
    (pages : list NotionPage)
    (Hprop : Forall (fun page => is_Some (properties_id page)) pages)
    (m : gmap string string) :
  exists issues,
    out (collectIssues pages [] m) = Returned issues /\
    length issues + length (emitted (collectIssues pages [] m)) = length pages /\
    Forall (fun e => e = ConsoleLog "oops") (emitted (collectIssues pages [] m)) /\
    map pageId issues `sublist_of` map page_id pages.
Proof.
  rewrite (collectIssues_all _ Hprop). eexists. split; [reflexivity|].
  cbn [out emitted app]. split; [apply entries_and_oops|]. split.
  - apply Forall_concat, Forall_forall. intros evs Hin.
    apply list_elem_of_fmap in Hin as (page & -> & _).
    unfold oopsOf. destruct (entryOf page); by repeat constructor.
  - apply entries_handles.
Qed.

Lemma destination_listed_or_logged_witness :
  exists issues,
    out (collectIssues [notionPage "page-a" "#1"; blankPage "page-b"] [] ∅)
    = Returned issues /\
    length issues
    + length (emitted (collectIssues [notionPage "page-a" "#1"; blankPage "page-b"]
                                     [] ∅)) = 2.
Proof.
  assert (Forall (fun page => is_Some (properties_id page))
            [notionPage "page-a" "#1"; blankPage "page-b"]) as Hprop
    by (repeat constructor; by eexists).
  destruct (destination_listed_or_logged _ Hprop ∅)
    as (issues & Hout & Hcount & _).
  exists issues. split; [exact Hout|exact Hcount].
Defined.

End DestinationMore.
(** ** The join between the two systems: mapper, index, reconciler *)

Module JoinMore.
Import GitLab Effects Vocabulary Samples EffectFacts GitLabClient Sync.
Import IndexFacts ReconcilerFacts ListerFacts.
Local Open Scope js_scope.

Lemma storeIssues_lookup_None (l : list NotionIssue) : forall key,
  key <> "__proto__" ->
  storeIssues l ∅ !! key = None ->
  Forall (fun record => issueNumber record <> key) l.
Proof.
  induction l as [|x l IH] using rev_ind; intros key Hkey Hnone; [constructor|].
  rewrite storeIssues_snoc in Hnone. unfold JS.obj_set in Hnone.
  apply Forall_app. destruct (decide (issueNumber x = "__proto__")) as [E|E].
  - split; [by apply IH|]. repeat constructor. congruence.
  - apply lookup_insert_None in Hnone as [Hnone Hne].
    split; [by apply IH|]. by repeat constructor.
Qed.

Lemma truthy_nonempty handle : JS.truthy (Some handle) = true <-> handle <> "".
Proof. destruct handle; simpl; split; (done || congruence). Qed.

(** X7. Every update the reconciler plans is aimed at the right page:
    the issue is one of the input, the handle is non-empty, and it is the
    handle of the last record whose text is exactly the decimal numeral
    of the issue's localId, so it reads as that localId. *)
Theorem updates_target_own_record
    (currentIssues : list NotionIssue) (issues : list GitLabIssue)
    (u : PageToUpdate)
    (Hu : In u (pagesToUpdate
                  (getNotionOperations (storeIssues currentIssues ∅) issues))) :
  In (u_issue u) issues /\
  u_pageId u <> "" /\
  exists i record,
    currentIssues !! i = Some record /\
    pageId record = u_pageId u /\
    issueNumber record = JS.Number_toString (iid (u_issue u)) /\
    JS.decimalValue (issueNumber record) = Some (iid (u_issue u)) /\
    (forall j later, i < j -> currentIssues !! j = Some later ->
                     issueNumber later <> issueNumber record).
Proof.
  rewrite getNotionOperations_spec in Hu. simpl in Hu.
  apply list_elem_of_In, list_elem_of_omap in Hu as (issue & Hin & Hu).
  pose proof Hu as Hu'. apply updateOf_Some in Hu' as (<- & Hlook & Hexisting).
  split; [by apply list_elem_of_In|]. split.
  - apply truthy_nonempty. unfold existing in Hexisting. by rewrite Hlook in Hexisting.
  - apply storeIssues_lookup_Some in Hlook as (i & record & Hi & Hkey & Hid & Hlast).
    exists i, record. repeat split; try done.
    + rewrite Hkey. apply decimalValue_toString.
    + intros j later Hj Hlater. rewrite Hkey. by apply (Hlast j).
Qed.

Lemma updates_target_own_record_witness :
  exists i record,
    [ {| pageId := "page-a"; issueNumber := "1" |};
      {| pageId := "page-c"; issueNumber := "3" |} ] !! i = Some record /\
    pageId record = "page-c".
Proof.
  assert (In {| u_issue := sampleIssue "Jan Strich" 3; u_pageId := "page-c" |}
             (pagesToUpdate
                (getNotionOperations
                   (storeIssues [ {| pageId := "page-a"; issueNumber := "1" |};
                                  {| pageId := "page-c"; issueNumber := "3" |} ] ∅)
                   sampleIssues))) as Hu.
  { vm_compute. right. left. reflexivity. }
  destruct (updates_target_own_record _ _ _ Hu)
    as (_ & _ & i & record & Hi & Hid & _).
  exists i, record. split; [exact Hi|exact Hid].
Defined.



Lemma entryOf_mirrored page pid issue :
  properties_id page =
    Some {| property_id := pid;
            rich_text := Some (p_id (getPropertiesFromIssue issue)) |} ->
  entryOf page = Some {| pageId := page_id page;
                         issueNumber := JS.Number_toString (iid issue) |}.
Proof. intros H. unfold entryOf. by rewrite H. Qed.

Lemma entryOf_handle page entry :
  entryOf page = Some entry -> pageId entry = page_id page.
Proof.
  unfold entryOf. destruct (properties_id page); [|done].
  destruct (readIssueNumber _); [|done]. by intros [= <-].
Qed.

(** X9. Repeated runs do not duplicate.  Against an empty index every
    issue is planned for creation.  Once the store holds, for each issue,
    a page whose identity property reads back as the mapper rendered it
    (all pages having the property and a non-empty handle), the lister's
    output indexes every issue: nothing is planned for creation and the
    updates are the issues, one each, in order. *)
Theorem second_run_updates_only
    (pages : list NotionPage) (issues : list GitLabIssue)
    (Hprop : Forall (fun page => is_Some (properties_id page)) pages)
    (Hhandles : forall page, In page pages -> page_id page <> "")
    (Hmirrored : forall issue, In issue issues ->
       exists page pid,
         In page pages /\
         properties_id page =
           Some {| property_id := pid;
                   rich_text := Some (p_id (getPropertiesFromIssue issue)) |}) :
  getNotionOperations ∅ issues
  = {| pagesToCreate := issues; pagesToUpdate := [] |} /\
  forall m,
    exists entries,
      out (collectIssues pages [] m) = Returned entries /\
      pagesToCreate (getNotionOperations (storeIssues entries ∅) issues) = [] /\
      map u_issue (pagesToUpdate (getNotionOperations (storeIssues entries ∅) issues))
      = issues.
Proof.
  split.
  - rewrite getNotionOperations_spec. f_equal.
    + apply filter_all. intros issue _. unfold existing, lookupPageId.
      by rewrite lookup_empty.
    + induction issues as [|issue rest IH]; [done|].
      cbn [omap list_omap]. unfold updateOf at 1, lookupPageId.
      rewrite lookup_empty. apply IH. intros i Hi. apply Hmirrored. by right.
  - intros m. rewrite (collectIssues_all _ Hprop). eexists. split; [reflexivity|].
    cbn [app]. rewrite getNotionOperations_spec. cbn [pagesToCreate pagesToUpdate].
    rewrite updates_issues.
    assert (forall issue, In issue issues ->
              existing (storeIssues (omap entryOf pages) ∅) issue = true) as Hall.
    { intros issue Hin. destruct (Hmirrored issue Hin) as (page & pid & Hpage & Hp).
      unfold existing, lookupPageId.
      destruct (storeIssues (omap entryOf pages) ∅ !! JS.Number_toString (iid issue))
        as [handle|] eqn:Hlook.
      - apply truthy_nonempty.
        apply storeIssues_lookup_Some in Hlook as (i & record & Hi & _ & Hid & _).
        apply list_elem_of_lookup_2, list_elem_of_omap in Hi as (page' & Hin' & Hentry).
        apply entryOf_handle in Hentry. rewrite <- Hid, Hentry.
        apply Hhandles. by apply list_elem_of_In.
      - exfalso. apply storeIssues_lookup_None in Hlook; [|apply toString_not_proto].
        rewrite Forall_forall in Hlook.
        apply (Hlook {| pageId := page_id page;
                        issueNumber := JS.Number_toString (iid issue) |}); [|done].
        apply list_elem_of_omap. exists page.
        split; [by apply list_elem_of_In|]. by apply (entryOf_mirrored _ pid). }
    split.
    + apply filter_none. intros issue Hin. by rewrite (Hall issue Hin).
    + by apply filter_all.
Qed.

Lemma second_run_updates_only_witness :
  exists entries,
    out (collectIssues [mirrored "page-a" (sampleIssue "Jan Strich" 1);
                        mirrored "page-b" (sampleIssue "Jan Strich" 2)] [] ∅)
    = Returned entries /\
    pagesToCreate
      (getNotionOperations (storeIssues entries ∅)
         [sampleIssue "Jan Strich" 1; sampleIssue "Jan Strich" 2]) = [].
Proof.
  assert (Forall (fun page => is_Some (properties_id page))
            [mirrored "page-a" (sampleIssue "Jan Strich" 1);
             mirrored "page-b" (sampleIssue "Jan Strich" 2)]) as Hprop
    by (repeat constructor; by eexists).
  assert (forall page,
            In page [mirrored "page-a" (sampleIssue "Jan Strich" 1);
                     mirrored "page-b" (sampleIssue "Jan Strich" 2)] ->
            page_id page <> "") as Hhandles.
  { intros page [<-|[<-|[]]]; discriminate. }
  assert (forall issue,
            In issue [sampleIssue "Jan Strich" 1; sampleIssue "Jan Strich" 2] ->
            exists page pid,
              In page [mirrored "page-a" (sampleIssue "Jan Strich" 1);
                       mirrored "page-b" (sampleIssue "Jan Strich" 2)] /\
              properties_id page =
                Some {| property_id := pid;
                        rich_text := Some (p_id (getPropertiesFromIssue issue)) |})
    as Hmirrored.
  { intros issue [<-|[<-|[]]].
    - exists (mirrored "page-a" (sampleIssue "Jan Strich" 1)), "%3Bx%5D".
      split; [by left|reflexivity].
    - exists (mirrored "page-b" (sampleIssue "Jan Strich" 2)), "%3Bx%5D".
      split; [right; by left|reflexivity]. }
  destruct (second_run_updates_only _ _ Hprop Hhandles Hmirrored) as (_ & Hsecond).
  destruct (Hsecond ∅) as (entries & Hout & Hnone & _).
  exists entries. split; [exact Hout|exact Hnone].
Defined.

(** X10. The field mapper loses none of the fields the mirror is keyed
    and read by: two issues with the same rendered properties have the
    same localId, title, description, labels, update time and url, and
    are both open or both not.  (What it does not keep apart is how the
    assignee names are split up, and states other than "opened".) *)
Theorem mapper_keeps_fields (a b : GitLabIssue)
    (Hsame : getPropertiesFromIssue a = getPropertiesFromIssue b) :
  iid a = iid b /\ title a = title b /\ description a = description b /\
  labels a = labels b /\ updated_at a = updated_at b /\ web_url a = web_url b /\
  (state a = "opened" <-> state b = "opened") /\
  JS.Array_join ", " (map user_name (assignees a))
  = JS.Array_join ", " (map user_name (assignees b)).
Proof.
  pose proof (f_equal p_id Hsame) as Hid.
  pose proof (f_equal p_open Hsame) as Hopen.
  pose proof (f_equal p_title Hsame) as Htitle.
  pose proof (f_equal p_notes Hsame) as Hnotes.
  pose proof (f_equal p_assignees Hsame) as Hnames.
  pose proof (f_equal p_last_updated_at Hsame) as Htime.
  pose proof (f_equal p_tags Hsame) as Htags.
  cbn in Hid, Hopen, Htitle, Hnotes, Hnames, Htime, Htags.
  injection Hid as Hnumber Hurl. injection Htitle as Htitle.
  injection Hnotes as Hnotes. injection Hnames as Hnames.
  repeat split; try done.
  - by apply toString_inj.
  - intros Ha. apply (bool_decide_eq_true_1 (state b = "opened")).
    rewrite <- Hopen. by apply (bool_decide_eq_true_2 (state a = "opened")).
  - intros Hb. apply (bool_decide_eq_true_1 (state a = "opened")).
    rewrite Hopen. by apply (bool_decide_eq_true_2 (state b = "opened")).
Qed.

Lemma mapper_keeps_fields_witness :
  jointIssue <> splitIssue /\ iid jointIssue = iid splitIssue.
Proof.
  split; [discriminate|].
  assert (getPropertiesFromIssue jointIssue = getPropertiesFromIssue splitIssue)
    as Hsame by reflexivity.
  destruct (mapper_keeps_fields jointIssue splitIssue Hsame) as (Hid & _).
  exact Hid.
Defined.

End JoinMore.
(** ** Batched Writer: how far it gets *)

Module WriterMore.
Import GitLab Effects Vocabulary Samples EffectFacts GitLabClient Sync.
Import ListerFacts WriterFacts RunFacts.
Local Open Scope js_scope.

Section ChunkPrefix.
Context {A : Type}.

Lemma chunk_loop_take_concat (n : nat) : forall steps (l : list A) j,
  length l <= steps -> 1 <= n ->
  concat (take j (JS.chunk_loop steps n l)) = take (j * n) l.
Proof.
  induction steps as [|steps IH]; intros l j Hlen Hn.
  - destruct l; [|simpl in Hlen; lia]. simpl. by rewrite take_nil, take_nil.
  - destruct l as [|x l]; [simpl; by rewrite take_nil, take_nil|].
    change (JS.chunk_loop (S steps) n (x :: l))
      with (take n (x :: l) :: JS.chunk_loop steps n (drop n (x :: l))).
    destruct j as [|j]; [done|].
    cbn [take concat]. rewrite IH; [| |done].
    2:{ rewrite length_drop. simpl in *. lia. }
    replace (S j * n) with (n + j * n) by lia.
    by rewrite take_take_drop.
Qed.

Lemma chunk_take_concat (l : list A) (n j : nat) :
  1 <= n -> concat (take j (JS.chunk l n)) = take (j * n) l.
Proof.
  intros Hn. unfold JS.chunk. destruct (decide _); [lia|].
  by apply chunk_loop_take_concat.
Qed.

End ChunkPrefix.

Section Progress.
Context {A : Type} (request : A -> event) (answer : A -> response unit).
Hypothesis request_call : forall x, isCall (request x) = true.

Let ok (x : A) : bool := resolved (answer x).

Lemma calls_requests (batch : list A) : calls (map request batch) = map request batch.
Proof.
  unfold calls. apply filter_all. intros e He.
  apply in_map_iff in He as (x & <- & _). apply request_call.
Qed.

Lemma calls_batchEvents (chunks : list (list A)) :
  calls (concat (map (batchEvents request) chunks)) = map request (concat chunks).
Proof.
  induction chunks as [|batch rest IH]; [done|].
  cbn [map concat]. unfold batchEvents at 1.
  rewrite !calls_app, calls_requests, IH, map_app.
  change (calls [ConsoleLog ("Completed batch size: " +:+ count batch)])
    with (@nil event).
  by rewrite app_nil_r.
Qed.

Lemma first_failing (chunks : list (list A)) :
  forallb ok (concat chunks) = false ->
  exists pre batch post,
    chunks = pre ++ batch :: post /\
    forallb ok (concat pre) = true /\
    forallb ok batch = false.
Proof.
  induction chunks as [|batch rest IH]; intros Hbad; [done|].
  cbn [concat] in Hbad. rewrite forallb_app in Hbad.
  destruct (forallb ok batch) eqn:Hbatch.
  - destruct (IH Hbad) as (pre & bad & post & -> & Hpre & Hfail).
    exists (batch :: pre), bad, post. repeat split; [|done].
    cbn [concat]. by rewrite forallb_app, Hbatch.
  - by exists [], batch, rest.
Qed.

Lemma processBatches_readonly (chunks : list (list A)) m :
  idMap (processBatches request answer chunks m) = m.
Proof.
  induction chunks as [|batch rest IH]; [done|].
  rewrite processBatches_step. by destruct (forallb _ batch).
Qed.

Lemma writerProgress_chunks :
  writerProgress
    (fun work => processBatches request answer (JS.chunk work OPERATION_BATCH_SIZE))
    request answer.
Proof.
  intros work m. split; [apply processBatches_readonly|].
  destruct (batchedWriter_chunks request answer work m)
    as (Hconcat & Hlookup & Hok & Hfail).
  unfold OPERATION_BATCH_SIZE in *. fold ok in Hok, Hfail |- *.
  destruct (forallb ok work) eqn:Hall.
  - left. rewrite (Hok eq_refl). cbn [out emitted]. repeat split.
    by rewrite calls_batchEvents, Hconcat.
  - right. rewrite <- Hconcat in Hall.
    destruct (first_failing _ Hall) as (pre & batch & post & Hsplit & Hpre & Hbatch).
    assert (concat pre = take (length pre * 10) work) as Hprefix.
    { rewrite <- (chunk_take_concat work 10 (length pre)) by lia.
      by rewrite Hsplit, take_app_length. }
    assert (JS.chunk work 10 !! length pre = Some batch) as Hat
      by (by rewrite Hsplit, list_lookup_middle).
    rewrite Hlookup in Hat. case_decide as Hin; [|done].
    injection Hat as Hat. exists (length pre).
    rewrite (Hfail pre batch post Hsplit Hpre Hbatch). cbn [out emitted].
    split; [done|]. split; [done|]. split; [by rewrite <- Hprefix|].
    split; [by rewrite Hat|].
    rewrite calls_app, calls_batchEvents, calls_requests, <- map_app.
    rewrite Hprefix, <- Hat.
    replace (S (length pre) * 10) with (length pre * 10 + 10) by lia.
    by rewrite take_take_drop.
Qed.

End Progress.

(** X11. How far a writer gets.  Whatever the store answers, either every
    operation succeeds, the writer returns and has made exactly one
    request per work item, in the work list's order; or it throws at the
    first batch with a failing operation, having made the requests of
    all items up to the end of that batch, in order, and none after it.
    The writer never skips an item, never repeats one and never touches
    the identity map. *)
Theorem writers_progress (w : World) :
  writerProgress (createPages w) createRequest (createAnswer w) /\
  writerProgress (updatePages w) updateRequest (updateAnswer w).
Proof. split; by apply writerProgress_chunks. Qed.

Lemma writers_progress_witness :
  calls (emitted (createPages (refusingWorld "#14") work23 ∅))
  = map createRequest (take 20 work23).
Proof.
  destruct (writers_progress (refusingWorld "#14")) as (Hcreate & _).
  destruct (Hcreate work23 ∅) as (_ & [(Hout & _)|(j & _ & Hj & Hpre & Hbad & Hcalls)]).
  - discriminate Hout.
  - destruct j as [|[|[|j]]].
    + discriminate Hbad.
    + exact Hcalls.
    + discriminate Hpre.
    + simpl in Hj. lia.
Defined.

End WriterMore.
(** ** The run as a whole: the index stays fixed, what success means *)

Module RunMore.
Import GitLab Effects Vocabulary Samples EffectFacts GitLabClient Sync.
Import ListerFacts IndexFacts ReconcilerFacts WriterFacts RunFacts WriterMore.
Local Open Scope js_scope.

Lemma readonly_readIdMap : readonly readIdMap.
Proof. by intros m. Qed.

Lemma issuesLoop_readonly fuel w : forall issues page,
  readonly (issuesLoop fuel w issues page).
Proof.
  induction fuel as [|fuel IH]; intros issues page; simpl; [auto with readonly|].
  apply readonly_bind; [auto with readonly|]. intros _.
  apply readonly_bind; [auto with readonly|]. intros data.
  case_decide; [apply IH|auto with readonly].
Qed.

Lemma labels_readonly w : readonly (getGitLabLabelsForProject w).
Proof. apply readonly_bind; auto with readonly. Qed.

Lemma updateMultiSelectOptions_readonly w labels :
  readonly (updateMultiSelectOptions w labels).
Proof. apply readonly_bind; auto with readonly. Qed.

Lemma createPages_readonly w work : readonly (createPages w work).
Proof. intros m. apply processBatches_readonly. Qed.

Lemma updatePages_readonly w work : readonly (updatePages w work).
Proof. intros m. apply processBatches_readonly. Qed.

Lemma sync_readonly fuel w : readonly (syncNotionDatabaseWithGitLab fuel w).
Proof.
  unfold syncNotionDatabaseWithGitLab, console_log.
  apply readonly_bind; [auto with readonly|]. intros _.
  apply readonly_bind; [apply issuesLoop_readonly|]. intros issues.
  apply readonly_bind; [auto with readonly|]. intros _.
  apply readonly_bind; [apply labels_readonly|]. intros labels.
  apply readonly_bind; [auto with readonly|]. intros _.
  apply readonly_bind; [apply updateMultiSelectOptions_readonly|]. intros _.
  apply readonly_bind; [apply readonly_readIdMap|]. intros m.
  apply readonly_bind; [auto with readonly|]. intros _.
  apply readonly_bind; [apply createPages_readonly|]. intros _.
  apply readonly_bind; [auto with readonly|]. intros _.
  apply readonly_bind; [apply updatePages_readonly|]. intros _.
  auto with readonly.
Qed.

Lemma idMap_bind {A B} (c : M A) (k : A -> M B) m :
  idMap (bind c k m) =
  match out (c m) with
  | Returned a => idMap (k a (idMap (c m)))
  | _ => idMap (c m)
  end.
Proof. unfold bind. by destruct (out (c m)). Qed.

(** X12. The identity map is written once, at the start: the sync
    itself, from the listing of the issues to the last update, leaves it
    as it found it.  So at the end of any run the map is the one filled
    from the Destination Lister's output (empty if the lister did not
    return); pages created during the run are not in it. *)
Theorem index_fixed_after_start (fuel : nat) (w : World) :
  readonly (syncNotionDatabaseWithGitLab fuel w) /\
  idMap (run (main fuel w))
  = idMap (run (setInitialGitLabToNotionIdMap fuel w)) /\
  (forall currentIssues,
      out (run (getIssuesFromNotionDatabase fuel w)) = Returned currentIssues ->
      idMap (run (main fuel w)) = storeIssues currentIssues ∅) /\
  ((forall currentIssues,
       out (run (getIssuesFromNotionDatabase fuel w)) <> Returned currentIssues) ->
   idMap (run (main fuel w)) = ∅).
Proof.
  assert (idMap (run (main fuel w))
          = idMap (run (setInitialGitLabToNotionIdMap fuel w))) as Hmain.
  { unfold run, main. rewrite idMap_bind.
    destruct (out _); [apply sync_readonly|done|done]. }
  split; [apply sync_readonly|]. split; [done|]. split.
  - intros currentIssues Hlister. by rewrite Hmain, (setInitial_run _ _ _ Hlister).
  - intros Hnone. rewrite Hmain. unfold run, setInitialGitLabToNotionIdMap.
    rewrite idMap_bind.
    destruct (out (getIssuesFromNotionDatabase fuel w ∅)) as [currentIssues| |] eqn:E.
    + by destruct (Hnone currentIssues).
    + apply getIssuesFromNotionDatabase_readonly.
    + apply getIssuesFromNotionDatabase_readonly.
Qed.

Lemma index_fixed_after_start_witness :
  idMap (run (main 1 smallWorld))
  = storeIssues [ {| pageId := "page-a"; issueNumber := "1" |} ] ∅.
Proof.
  destruct (index_fixed_after_start 1 smallWorld) as (_ & _ & Hfilled & _).
  apply Hfilled. reflexivity.
Defined.

(** *** Runs that return *)

Lemma bind_returned_inv {A B} (c : M A) (k : A -> M B) m b :
  out (bind c k m) = Returned b ->
  exists a,
    out (c m) = Returned a /\
    out (k a (idMap (c m))) = Returned b /\
    emitted (bind c k m) = emitted (c m) ++ emitted (k a (idMap (c m))).
Proof.
  intros Hout. rewrite emitted_bind. unfold bind in Hout.
  destruct (out (c m)) as [a| |]; [|done|done]. by exists a.
Qed.

Lemma labels_returned w m labels :
  out (getGitLabLabelsForProject w m) = Returned labels ->
  gitlab_labels w = Resolves labels /\
  emitted (getGitLabLabelsForProject w m) = [GitLabLabelsRequest].
Proof.
  unfold getGitLabLabelsForProject. rewrite bind_emit.
  destruct (gitlab_labels w) as [found|]; [|done].
  simpl. by intros [= ->].
Qed.

Lemma updateMultiSelectOptions_emitted w labels m :
  emitted (updateMultiSelectOptions w labels m)
  = [NotionDatabasesUpdate (multiSelectOptions availableColors labels)].
Proof.
  unfold updateMultiSelectOptions. rewrite bind_emit.
  by destruct (databases_update w _).
Qed.

Lemma writes_of_calls tr : List.filter isWrite (calls tr) = List.filter isWrite tr.
Proof.
  unfold calls. induction tr as [|e tr IH]; [done|].
  simpl. destruct e; simpl; by rewrite IH.
Qed.

Lemma phase_no_writes {A} s (c : M A) m :
  phase s c -> s < 5 -> List.filter isWrite (emitted (c m)) = [].
Proof.
  intros Hc Hs. apply filter_none. intros e He.
  destruct (isWrite e) eqn:Hwrite; [|done].
  apply isWrite_stage in Hwrite as [Hcall Hstage].
  specialize (Hc m). rewrite Forall_forall in Hc.
  apply list_elem_of_In in He. specialize (Hc e He Hcall). lia.
Qed.

Lemma writer_returned {A} (writer : list A -> M unit) request answer work m :
  writerProgress writer request answer ->
  (forall x, isWrite (request x) = true) ->
  out (writer work m) = Returned tt ->
  forallb (fun x => resolved (answer x)) work = true /\
  List.filter isWrite (emitted (writer work m)) = map request work.
Proof.
  intros Hprogress Hwrite Hout.
  destruct (Hprogress work m) as (_ & [(_ & Hall & Hcalls)|(j & Hthrown & _)]);
    [|congruence].
  split; [done|]. rewrite <- writes_of_calls, Hcalls.
  apply filter_all. intros e He. apply in_map_iff in He as (x & <- & _).
  apply Hwrite.
Qed.

Ltac past_emit H E :=
  match type of H with
  | context [idMap (emit ?e ?m)] => change (idMap (emit e m)) with m in H, E
  end.

Lemma sync_returned fuel w idx :
  out (syncNotionDatabaseWithGitLab fuel w idx) = Returned tt ->
  exists issues labels,
    out (getGitLabIssuesForRepository fuel w idx) = Returned issues /\
    gitlab_labels w = Resolves labels /\
    databases_update w (multiSelectOptions availableColors labels) = Resolves tt /\
    forallb (fun x => resolved (createAnswer w x))
            (pagesToCreate (getNotionOperations idx issues)) = true /\
    forallb (fun x => resolved (updateAnswer w x))
            (pagesToUpdate (getNotionOperations idx issues)) = true /\
    List.filter isWrite (emitted (syncNotionDatabaseWithGitLab fuel w idx))
    = map createRequest (pagesToCreate (getNotionOperations idx issues))
      ++ map updateRequest (pagesToUpdate (getNotionOperations idx issues)) /\
    exists before,
      emitted (syncNotionDatabaseWithGitLab fuel w idx)
      = before ++ [ConsoleLog (nl +:+ "✅ Notion database is synced with GitLab.")].
Proof.
  unfold syncNotionDatabaseWithGitLab, console_log. intros Hout.
  apply bind_returned_inv in Hout as (? & _ & Hout & E1).
  past_emit Hout E1.
  apply bind_returned_inv in Hout as (issues & Hissues & Hout & E2).
  rewrite (issuesLoop_readonly fuel w [] 1 idx
           : idMap (getGitLabIssuesForRepository fuel w idx) = idx) in Hout, E2.
  apply bind_returned_inv in Hout as (? & _ & Hout & E3).
  past_emit Hout E3.
  apply bind_returned_inv in Hout as (labels & Hlabels & Hout & E4).
  rewrite (labels_readonly w idx) in Hout, E4.
  apply labels_returned in Hlabels as [Hlabels Elabels].
  apply bind_returned_inv in Hout as (? & _ & Hout & E5).
  past_emit Hout E5.
  apply bind_returned_inv in Hout as (? & Htaxonomy & Hout & E6).
  rewrite (updateMultiSelectOptions_readonly w labels idx) in Hout, E6.
  apply updateMultiSelectOptions_returned in Htaxonomy as [Htaxonomy _].
  apply bind_returned_inv in Hout as (m & Hm & Hout & E7).
  injection Hm as <-. rewrite (readonly_readIdMap idx) in Hout, E7.
  apply bind_returned_inv in Hout as (? & _ & Hout & E8).
  past_emit Hout E8.
  apply bind_returned_inv in Hout as ([] & Hcreate & Hout & E9).
  rewrite (createPages_readonly w _ idx) in Hout, E9.
  apply bind_returned_inv in Hout as (? & _ & Hout & E10).
  past_emit Hout E10.
  apply bind_returned_inv in Hout as ([] & Hupdate & Hout & E11).
  rewrite (updatePages_readonly w _ idx) in Hout, E11.
  destruct (writer_returned _ _ _ _ _ (proj1 (writers_progress w))
              (fun _ => eq_refl) Hcreate) as [Hcreated Hcreates].
  destruct (writer_returned _ _ _ _ _ (proj2 (writers_progress w))
              (fun _ => eq_refl) Hupdate) as [Hupdated Hupdates].
  exists issues, labels. repeat (split; [done|]).
  rewrite E1, E2, E3, E4, E5, E6, E7, E8, E9, E10, E11. split.
  - rewrite !List.filter_app, Hcreates, Hupdates.
    rewrite (phase_no_writes 2 (getGitLabIssuesForRepository fuel w) idx
               (issuesLoop_phase fuel w [] 1)) by lia.
    rewrite Elabels, updateMultiSelectOptions_emitted. simpl.
    by rewrite app_nil_r.
  - eexists. rewrite !app_assoc. reflexivity.
Qed.

(** X13. What a run that returns has done.  The Destination Lister,
    the Source Lister and the label request returned, the store accepted
    the tag options, and every planned operation succeeded.  The page
    writes of the run are exactly one create per issue without a usable
    index entry followed by one update per indexed issue, each in the
    Source Lister's order, and the last thing the run does is print the
    success line. *)
Theorem successful_run (fuel : nat) (w : World)
    (Hout : out (run (main fuel w)) = Returned tt) :
  exists currentIssues issues labels,
    out (run (getIssuesFromNotionDatabase fuel w)) = Returned currentIssues /\
    out (getGitLabIssuesForRepository fuel w (storeIssues currentIssues ∅))
    = Returned issues /\
    gitlab_labels w = Resolves labels /\
    databases_update w (multiSelectOptions availableColors labels) = Resolves tt /\
    forallb (fun x => resolved (createAnswer w x))
      (pagesToCreate (getNotionOperations (storeIssues currentIssues ∅) issues))
    = true /\
    forallb (fun x => resolved (updateAnswer w x))
      (pagesToUpdate (getNotionOperations (storeIssues currentIssues ∅) issues))
    = true /\
    List.filter isWrite (emitted (run (main fuel w)))
    = map createRequest
        (pagesToCreate (getNotionOperations (storeIssues currentIssues ∅) issues))
      ++ map updateRequest
           (pagesToUpdate (getNotionOperations (storeIssues currentIssues ∅) issues)) /\
    exists before,
      emitted (run (main fuel w))
      = before ++ [ConsoleLog (nl +:+ "✅ Notion database is synced with GitLab.")].
Proof.
  unfold run, main in Hout |- *.
  apply bind_returned_inv in Hout as ([] & Hset & Hsync & E0).
  pose proof Hset as Hlister. unfold setInitialGitLabToNotionIdMap in Hlister.
  apply bind_returned_inv in Hlister as (currentIssues & Hlister & _ & _).
  pose proof (setInitial_run fuel w currentIssues Hlister) as Hstart.
  unfold run in Hstart. rewrite Hstart in Hsync, E0. cbn [idMap emitted] in Hsync, E0.
  destruct (sync_returned _ _ _ Hsync)
    as (issues & labels & Hissues & Hlabels & Htaxonomy & Hcreated & Hupdated
        & Hwrites & before & Hlast).
  exists currentIssues, issues, labels. repeat (split; [done|]).
  rewrite E0. split.
  - rewrite List.filter_app, Hwrites.
    assert (List.filter isWrite (emitted (getIssuesFromNotionDatabase fuel w ∅)) = [])
      as ->; [|done].
    pose proof (phase_no_writes 1 _ ∅ (setInitial_phase fuel w)) as Hquiet.
    rewrite Hstart in Hquiet. apply Hquiet. lia.
  - exists (emitted (getIssuesFromNotionDatabase fuel w ∅) ++ before).
    by rewrite Hlast, app_assoc.
Qed.

Lemma successful_run_witness :
  exists before,
    emitted (run (main 1 smallWorld))
    = before ++ [ConsoleLog (nl +:+ "✅ Notion database is synced with GitLab.")].
Proof.
  assert (out (run (main 1 smallWorld)) = Returned tt) as Hout by reflexivity.
  destruct (successful_run 1 smallWorld Hout)
    as (_ & _ & _ & _ & _ & _ & _ & _ & _ & _ & Hlast).
  exact Hlast.
Defined.

(** *** A refused create *)

Lemma descend {A} (c : M A) (k : A -> M unit) m s properties :
  phase s c -> s < 5 ->
  In (NotionPagesCreate properties) (emitted (bind c k m)) ->
  (forall a,
      In (NotionPagesCreate properties) (emitted (k a (idMap (c m)))) ->
      stoppedBeforeUpdates (k a (idMap (c m)))) ->
  stoppedBeforeUpdates (bind c k m).
Proof.
  intros Hc Hs Hin Hrest. specialize (Hc m). rewrite Forall_forall in Hc.
  rewrite emitted_bind in Hin. apply in_app_or in Hin as [Hin|Hin].
  { apply list_elem_of_In in Hin. specialize (Hc _ Hin eq_refl). simpl in Hc. lia. }
  unfold stoppedBeforeUpdates. rewrite emitted_bind. unfold bind.
  destruct (out (c m)) as [a| |]; [|done|done].
  destruct (Hrest a Hin) as [Hout Hnone]. split; [done|].
  intros pageId props Hupdate. apply in_app_or in Hupdate as [Hupdate|Hupdate].
  - apply list_elem_of_In in Hupdate. specialize (Hc _ Hupdate eq_refl).
    simpl in Hc. lia.
  - by apply (Hnone pageId props).
Qed.

Lemma refused_in_createPages (k : unit -> M unit) w work m properties :
  (forall a, phase 6 (k a)) ->
  pages_create w properties = Rejects ->
  In (NotionPagesCreate properties) (emitted (bind (createPages w work) k m)) ->
  stoppedBeforeUpdates (bind (createPages w work) k m).
Proof.
  intros Hk Hrefused Hin. rewrite emitted_bind in Hin.
  assert (forall a e, In e (emitted (k a (idMap (createPages w work m)))) ->
                      isCall e = true -> stage e = 6) as Hlater.
  { intros a e He. specialize (Hk a (idMap (createPages w work m))).
    rewrite Forall_forall in Hk. apply Hk. by apply list_elem_of_In. }
  assert (In (NotionPagesCreate properties) (emitted (createPages w work m)))
    as Hhere.
  { apply in_app_or in Hin as [Hin|Hin]; [done|].
    destruct (out (createPages w work m)) as [a| |]; [|done|done].
    specialize (Hlater a _ Hin eq_refl). discriminate Hlater. }
  destruct (proj1 (writers_progress w) work m)
    as (_ & [(_ & Hall & Hcalls)|(j & Hthrown & _)]).
  - exfalso.
    assert (In (NotionPagesCreate properties) (calls (emitted (createPages w work m))))
      as Hcall by (apply in_calls; by split).
    rewrite Hcalls in Hcall. apply in_map_iff in Hcall as (x & Hx & Hwork).
    injection Hx as Hx. rewrite forallb_forall in Hall. specialize (Hall x Hwork).
    unfold createAnswer in Hall. rewrite Hx, Hrefused in Hall. discriminate Hall.
  - unfold stoppedBeforeUpdates. rewrite bind_thrown by done. cbn [out emitted].
    split; [done|]. intros pageId props Hupdate.
    pose proof (createPages_phase w work m) as Hphase.
    rewrite Forall_forall in Hphase. apply list_elem_of_In in Hupdate.
    specialize (Hphase _ Hupdate eq_refl). discriminate Hphase.
Qed.

(** X14. One refused create stops the run before any update.  If the
    run asks the store to create a page and the store refuses that page,
    the run throws and has issued no update at all, not even for issues
    that have nothing to do with the refused one. *)
Theorem refused_create_blocks_updates
    (fuel : nat) (w : World) (properties : Properties)
    (Hasked : In (NotionPagesCreate properties) (emitted (run (main fuel w))))
    (Hrefused : pages_create w properties = Rejects) :
  out (run (main fuel w)) = Thrown /\
  forall pageId updated,
    ~ In (NotionPagesUpdate pageId updated) (emitted (run (main fuel w))).
Proof.
  change (stoppedBeforeUpdates (run (main fuel w))).
  unfold run, main, syncNotionDatabaseWithGitLab, console_log in *.
  eapply descend; [apply setInitial_phase|lia|exact Hasked|]. clear Hasked.
  intros _ Hasked.
  eapply descend; [apply (phase_log 0)|lia|exact Hasked|]. clear Hasked.
  intros _ Hasked.
  eapply descend; [apply issuesLoop_phase|lia|exact Hasked|]. clear Hasked.
  intros issues Hasked.
  eapply descend; [apply (phase_log 0)|lia|exact Hasked|]. clear Hasked.
  intros _ Hasked.
  eapply descend; [apply labels_phase|lia|exact Hasked|]. clear Hasked.
  intros labels Hasked.
  eapply descend; [apply (phase_log 0)|lia|exact Hasked|]. clear Hasked.
  intros _ Hasked.
  eapply descend; [apply updateMultiSelectOptions_phase|lia|exact Hasked|].
  clear Hasked. intros _ Hasked.
  eapply descend; [apply (phase_readIdMap 0)|lia|exact Hasked|]. clear Hasked.
  intros m Hasked.
  eapply descend; [apply (phase_log 0)|lia|exact Hasked|]. clear Hasked.
  intros _ Hasked.
  apply (refused_in_createPages _ _ _ _ properties); [|done|done].
  intros _. apply phase_bind; [apply phase_log|]. intros _.
  apply phase_bind; [apply updatePages_phase|]. intros _. apply phase_log.
Qed.

Lemma refused_create_blocks_updates_witness :
  out (run (main 1 {| databases_retrieve := databases_retrieve smallWorld;
                      databases_query := databases_query smallWorld;
                      gitlab_issues := gitlab_issues smallWorld;
                      gitlab_labels := gitlab_labels smallWorld;
                      databases_update := databases_update smallWorld;
                      pages_create := pages_create (refusingWorld "#2");
                      pages_update := pages_update smallWorld |}))
  = Thrown.
Proof.
  eapply (refused_create_blocks_updates 1 _
            (getPropertiesFromIssue (sampleIssue "Jan Strich" 2))).
  - apply list_elem_of_In. apply (bool_decide_unpack _). vm_compute. reflexivity.
  - reflexivity.
Defined.

End RunMore.
(** ** Taxonomy Sync: which labels share a colour *)

Module TaxonomyMore.
Import GitLab Effects Vocabulary Samples EffectFacts GitLabClient Sync.
Local Open Scope js_scope.

Lemma availableColors_NoDup : NoDup availableColors.
Proof. apply (bool_decide_unpack _). vm_compute. reflexivity. Qed.

Lemma imap_names (f : nat -> GitLabLabel -> SelectOption) :
  forall labels : list GitLabLabel,
    (forall k l, option_name (f k l) = label_name l) ->
    map option_name (imap f labels) = map label_name labels.
Proof.
  intros labels. revert f.
  induction labels as [|l rest IH]; intros f Hf; [done|].
  simpl. rewrite Hf. f_equal. apply IH. intros k l'. apply Hf.
Qed.

(** X15. With the script's palette every label gets a colour, the
    options carry the labels' names in the labels' order, and two labels
    get the same colour exactly when their positions differ by a
    multiple of 10: the first ten labels have ten different colours. *)
Theorem palette_colors_repeat_every_ten
    (labels : list GitLabLabel) (i j : nat) (oi oj : SelectOption)
    (Hi : multiSelectOptions availableColors labels !! i = Some oi)
    (Hj : multiSelectOptions availableColors labels !! j = Some oj) :
  map option_name (multiSelectOptions availableColors labels)
  = map label_name labels /\
  is_Some (option_color oi) /\
  (option_color oi = option_color oj <-> i mod 10 = j mod 10).
Proof.
  unfold multiSelectOptions in *. rewrite list_lookup_imap in Hi, Hj.
  change (length availableColors) with 10 in *.
  destruct (labels !! i) as [li|]; [|done]. destruct (labels !! j) as [lj|]; [|done].
  injection Hi as <-. injection Hj as <-.
  assert (forall n, is_Some (availableColors !! (n mod 10))) as Hcolor.
  { intros n. apply lookup_lt_is_Some. change (length availableColors) with 10.
    apply Nat.mod_upper_bound. lia. }
  split; [|split].
  - apply imap_names. by intros k l.
  - apply Hcolor.
  - split.
    + intros Hsame.
      change (availableColors !! (i mod 10) = availableColors !! (j mod 10)) in Hsame.
      destruct (Hcolor i) as [color Hc]. rewrite Hc in Hsame.
      symmetry in Hsame.
      apply (NoDup_lookup _ _ _ color availableColors_NoDup Hc Hsame).
    + intros Hmod.
      change (availableColors !! (i mod 10) = availableColors !! (j mod 10)).
      by rewrite Hmod.
Qed.

Lemma palette_colors_repeat_every_ten_witness :
  option_color {| option_name := "a"; option_color := Some "blue" |}
  = option_color {| option_name := "c"; option_color := Some "default" |}
  <-> 0 mod 10 = 2 mod 10.
Proof.
  destruct (palette_colors_repeat_every_ten sampleLabels 0 2
              {| option_name := "a"; option_color := Some "blue" |}
              {| option_name := "c"; option_color := Some "default" |}
              eq_refl eq_refl) as (_ & _ & Hiff).
  exact Hiff.
Defined.

End TaxonomyMore.
(** ** The order of a run, stage by stage (C8) *)

Module RunOrder.
Import GitLab Effects Vocabulary Samples EffectFacts GitLabClient Sync.
Import ListerFacts IndexFacts ReconcilerFacts WriterFacts RunFacts WriterMore RunMore.
Local Open Scope js_scope.

(** A write found in the trace of [bind c k], where [c] only makes calls
    of an earlier stage: [c] returned, the write is the continuation's,
    and the trace is [c]'s followed by the continuation's. *)
Lemma bind_reach {A B} (c : M A) (k : A -> M B) m s e :
  phase s c -> s < 5 ->
  In e (emitted (bind c k m)) -> isWrite e = true ->
  exists a,
    out (c m) = Returned a /\
    In e (emitted (k a (idMap (c m)))) /\
    emitted (bind c k m) = emitted (c m) ++ emitted (k a (idMap (c m))).
Proof.
  intros Hc Hs Hin Hwrite. rewrite emitted_bind in Hin |- *.
  apply isWrite_stage in Hwrite as [Hcall Hstage].
  apply in_app_or in Hin as [Hin|Hin].
  - specialize (Hc m). rewrite Forall_forall in Hc.
    apply list_elem_of_In in Hin. specialize (Hc e Hin Hcall). lia.
  - destruct (out (c m)) as [a| |]; [|done|done]. by exists a.
Qed.

Lemma writing_emitted w ops idx :
  emitted
    (bind (createPages w (pagesToCreate ops))
       (fun _ =>
          bind (emit (ConsoleLog (nl +:+ count (pagesToUpdate ops)
                                  +:+ " issues to update in Notion.")))
            (fun _ =>
               bind (updatePages w (pagesToUpdate ops))
                 (fun _ =>
                    emit (ConsoleLog
                            (nl +:+ "✅ Notion database is synced with GitLab.")))))
       idx)
  = writingTrace w ops idx.
Proof.
  unfold writingTrace. rewrite emitted_bind. f_equal.
  destruct (out (createPages w (pagesToCreate ops) idx)) as [[]| |]; [|done|done].
  rewrite (createPages_readonly w _ idx), bind_emit. unfold after. cbn [emitted app].
  f_equal. rewrite emitted_bind. reflexivity.
Qed.

(** A run with a write in its trace got there through every stage. *)
Lemma main_reaches_writes fuel w e :
  In e (emitted (run (main fuel w))) -> isWrite e = true ->
  exists currentIssues issues labels,
    out (run (getIssuesFromNotionDatabase fuel w)) = Returned currentIssues /\
    out (getGitLabIssuesForRepository fuel w (storeIssues currentIssues ∅))
    = Returned issues /\
    gitlab_labels w = Resolves labels /\
    databases_update w (multiSelectOptions availableColors labels) = Resolves tt /\
    emitted (run (main fuel w)) = runTrace fuel w currentIssues issues labels.
Proof.
  unfold run, main. intros Hin Hwrite.
  eapply bind_reach in Hin as ([] & Hset & Hin & E0);
    [|apply setInitial_phase|lia|done].
  pose proof Hset as Hlister. unfold setInitialGitLabToNotionIdMap in Hlister.
  apply bind_returned_inv in Hlister as (currentIssues & Hlister & _ & _).
  pose proof (setInitial_run fuel w currentIssues Hlister) as Hstart.
  unfold run in Hstart. rewrite Hstart in Hin, E0. cbn [idMap emitted] in Hin, E0.
  set (idx := storeIssues currentIssues ∅) in *.
  unfold syncNotionDatabaseWithGitLab, console_log in Hin, E0.
  eapply bind_reach in Hin as (? & _ & Hin & E1); [|apply (phase_log 0)|lia|done].
  past_emit Hin E1.
  eapply bind_reach in Hin as (issues & Hissues & Hin & E2);
    [|apply issuesLoop_phase|lia|done].
  rewrite (issuesLoop_readonly fuel w [] 1 idx
           : idMap (getGitLabIssuesForRepository fuel w idx) = idx) in Hin, E2.
  eapply bind_reach in Hin as (? & _ & Hin & E3); [|apply (phase_log 0)|lia|done].
  past_emit Hin E3.
  eapply bind_reach in Hin as (labels & Hlabels & Hin & E4);
    [|apply labels_phase|lia|done].
  rewrite (labels_readonly w idx) in Hin, E4.
  apply labels_returned in Hlabels as [Hlabels Elabels].
  eapply bind_reach in Hin as (? & _ & Hin & E5); [|apply (phase_log 0)|lia|done].
  past_emit Hin E5.
  eapply bind_reach in Hin as (? & Htaxonomy & Hin & E6);
    [|apply updateMultiSelectOptions_phase|lia|done].
  rewrite (updateMultiSelectOptions_readonly w labels idx) in Hin, E6.
  apply updateMultiSelectOptions_returned in Htaxonomy as [Htaxonomy _].
  eapply bind_reach in Hin as (m & Hm & Hin & E7);
    [|apply (phase_readIdMap 0)|lia|done].
  injection Hm as <-. rewrite (readonly_readIdMap idx) in Hin, E7.
  eapply bind_reach in Hin as (? & _ & Hin & E8); [|apply (phase_log 0)|lia|done].
  past_emit Hin E8.
  exists currentIssues, issues, labels. repeat (split; [done|]).
  unfold syncNotionDatabaseWithGitLab, console_log.
  rewrite E0, E1, E2, E3, E4, E5, E6, E7, E8.
  rewrite (writing_emitted w (getNotionOperations idx issues) idx).
  rewrite Elabels, updateMultiSelectOptions_emitted.
  unfold runTrace, run, planned. fold idx. cbn [emitted emit readIdMap app].
  reflexivity.
Qed.

(** A run that returns went through every stage as well. *)
Lemma main_returned_trace fuel w :
  out (run (main fuel w)) = Returned tt ->
  exists currentIssues issues labels,
    out (run (getIssuesFromNotionDatabase fuel w)) = Returned currentIssues /\
    out (getGitLabIssuesForRepository fuel w (storeIssues currentIssues ∅))
    = Returned issues /\
    gitlab_labels w = Resolves labels /\
    databases_update w (multiSelectOptions availableColors labels) = Resolves tt /\
    emitted (run (main fuel w)) = runTrace fuel w currentIssues issues labels.
Proof.
  unfold run, main. intros Hout.
  apply bind_returned_inv in Hout as ([] & Hset & Hout & E0).
  pose proof Hset as Hlister. unfold setInitialGitLabToNotionIdMap in Hlister.
  apply bind_returned_inv in Hlister as (currentIssues & Hlister & _ & _).
  pose proof (setInitial_run fuel w currentIssues Hlister) as Hstart.
  unfold run in Hstart. rewrite Hstart in Hout, E0. cbn [idMap emitted] in Hout, E0.
  set (idx := storeIssues currentIssues ∅) in *.
  unfold syncNotionDatabaseWithGitLab, console_log in Hout, E0.
  apply bind_returned_inv in Hout as (? & _ & Hout & E1). past_emit Hout E1.
  apply bind_returned_inv in Hout as (issues & Hissues & Hout & E2).
  rewrite (issuesLoop_readonly fuel w [] 1 idx
           : idMap (getGitLabIssuesForRepository fuel w idx) = idx) in Hout, E2.
  apply bind_returned_inv in Hout as (? & _ & Hout & E3). past_emit Hout E3.
  apply bind_returned_inv in Hout as (labels & Hlabels & Hout & E4).
  rewrite (labels_readonly w idx) in Hout, E4.
  apply labels_returned in Hlabels as [Hlabels Elabels].
  apply bind_returned_inv in Hout as (? & _ & Hout & E5). past_emit Hout E5.
  apply bind_returned_inv in Hout as (? & Htaxonomy & Hout & E6).
  rewrite (updateMultiSelectOptions_readonly w labels idx) in Hout, E6.
  apply updateMultiSelectOptions_returned in Htaxonomy as [Htaxonomy _].
  apply bind_returned_inv in Hout as (m & Hm & Hout & E7).
  injection Hm as <-. rewrite (readonly_readIdMap idx) in Hout, E7.
  apply bind_returned_inv in Hout as (? & _ & Hout & E8). past_emit Hout E8.
  exists currentIssues, issues, labels. repeat (split; [done|]).
  unfold syncNotionDatabaseWithGitLab, console_log.
  rewrite E0, E1, E2, E3, E4, E5, E6, E7, E8.
  rewrite (writing_emitted w (getNotionOperations idx issues) idx).
  rewrite Elabels, updateMultiSelectOptions_emitted.
  unfold runTrace, run, planned. fold idx. cbn [emitted emit readIdMap app].
  reflexivity.
Qed.

Lemma phase_no_creates {A} s (c : M A) m :
  phase s c -> s <> 5 -> List.filter isCreate (emitted (c m)) = [].
Proof.
  intros Hc Hs. apply filter_none. intros e He.
  destruct e; try done. specialize (Hc m). rewrite Forall_forall in Hc.
  apply list_elem_of_In in He. specialize (Hc _ He eq_refl). simpl in Hc. lia.
Qed.

Lemma phase_no_updates {A} s (c : M A) m pageId properties :
  phase s c -> s <> 6 -> ~ In (NotionPagesUpdate pageId properties) (emitted (c m)).
Proof.
  intros Hc Hs He. specialize (Hc m). rewrite Forall_forall in Hc.
  apply list_elem_of_In in He. specialize (Hc _ He eq_refl). simpl in Hc. lia.
Qed.

Lemma creates_of_writes tr :
  List.filter isCreate (List.filter isWrite tr) = List.filter isCreate tr.
Proof.
  induction tr as [|e tr IH]; [done|]. simpl. destruct e; simpl; by rewrite IH.
Qed.

Lemma creates_of_requests (work : list GitLabIssue) :
  List.filter isCreate (map createRequest work) = map createRequest work.
Proof.
  apply filter_all. intros e He. by apply in_map_iff in He as (x & <- & _).
Qed.

(** The part of the trace in front of the writing stage. *)
Lemma runTrace_front fuel w currentIssues issues labels :
  out (run (getIssuesFromNotionDatabase fuel w)) = Returned currentIssues ->
  exists front,
    runTrace fuel w currentIssues issues labels
    = front ++ writingTrace w (planned currentIssues issues)
                 (storeIssues currentIssues ∅) /\
    List.filter isCreate front = [] /\
    (forall pageId properties, ~ In (NotionPagesUpdate pageId properties) front).
Proof.
  intros Hlister.
  pose proof (setInitial_run fuel w currentIssues Hlister) as Hstart.
  assert (emitted (run (getIssuesFromNotionDatabase fuel w))
          = emitted (setInitialGitLabToNotionIdMap fuel w ∅)) as Hindex
    by (unfold run in *; by rewrite Hstart).
  pose proof (setInitial_phase fuel w) as Hphase1.
  pose proof (issuesLoop_phase fuel w [] 1
              : phase 2 (getGitLabIssuesForRepository fuel w)) as Hphase2.
  exists (emitted (run (getIssuesFromNotionDatabase fuel w))
          ++ ConsoleLog (nl +:+ "Fetching issues from GitLab repository...")
          :: emitted (getGitLabIssuesForRepository fuel w (storeIssues currentIssues ∅))
          ++ [ ConsoleLog ("Fetched " +:+ count issues
                           +:+ " issues from GitLab repository.");
               GitLabLabelsRequest;
               ConsoleLog ("Fetched " +:+ count labels
                           +:+ " lables from GitLab project.");
               NotionDatabasesUpdate (multiSelectOptions availableColors labels);
               ConsoleLog (nl +:+ count (pagesToCreate (planned currentIssues issues))
                           +:+ " new issues to add to Notion.") ]).
  split; [|split].
  - unfold runTrace. rewrite <- app_assoc. f_equal. cbn [app]. f_equal.
    by rewrite <- app_assoc.
  - rewrite Hindex, List.filter_app.
    rewrite (phase_no_creates 1 _ ∅ Hphase1) by lia.
    change (List.filter isCreate (ConsoleLog ?l :: ?rest))
      with (List.filter isCreate rest).
    rewrite List.filter_app.
    rewrite (phase_no_creates 2 _ _ Hphase2) by lia. reflexivity.
  - intros pageId properties Hin. rewrite Hindex in Hin.
    apply in_app_or in Hin as [Hin|Hin].
    + by apply (phase_no_updates 1 _ ∅ pageId properties Hphase1) in Hin.
    + destruct Hin as [Hin|Hin]; [done|].
      apply in_app_or in Hin as [Hin|Hin].
      * by apply (phase_no_updates 2 _ _ pageId properties Hphase2) in Hin.
      * simpl in Hin.
        repeat (destruct Hin as [Hin|Hin]; [discriminate Hin|]). destruct Hin.
Qed.

(** An update in the writing stage: [createPages] had returned, every
    planned create was issued and succeeded, and the update is a planned
    one. *)
Lemma writing_update w ops idx pageId properties :
  In (NotionPagesUpdate pageId properties) (writingTrace w ops idx) ->
  out (createPages w (pagesToCreate ops) idx) = Returned tt /\
  forallb (fun x => resolved (createAnswer w x)) (pagesToCreate ops) = true /\
  List.filter isCreate (writingTrace w ops idx)
  = map createRequest (pagesToCreate ops) /\
  In (NotionPagesUpdate pageId properties) (map updateRequest (pagesToUpdate ops)).
Proof.
  unfold writingTrace. intros Hin. apply in_app_or in Hin as [Hin|Hin].
  { by apply (phase_no_updates 5 _ _ _ _ (createPages_phase w _)) in Hin. }
  destruct (out (createPages w (pagesToCreate ops) idx)) as [[]| |] eqn:Hcreate;
    [|done|done].
  destruct (writer_returned _ _ _ _ _ (proj1 (writers_progress w))
              (fun _ => eq_refl) Hcreate) as [Hcreated Hcreates].
  split; [done|]. split; [done|]. split.
  - rewrite List.filter_app. cbn [List.filter isCreate]. rewrite List.filter_app.
    rewrite <- (creates_of_writes (emitted (createPages _ _ _))), Hcreates.
    rewrite creates_of_requests.
    rewrite (phase_no_creates 6 _ _ (updatePages_phase w _)) by lia.
    destruct (out (updatePages w (pagesToUpdate ops) idx)); simpl;
      by rewrite app_nil_r.
  - destruct Hin as [Hin|Hin]; [done|]. apply in_app_or in Hin as [Hin|Hin].
    + assert (In (NotionPagesUpdate pageId properties)
                 (calls (emitted (updatePages w (pagesToUpdate ops) idx))))
        as Hcall by (apply in_calls; by split).
      destruct (proj2 (writers_progress w) (pagesToUpdate ops) idx)
        as (_ & [(_ & _ & Hcalls)|(j & _ & _ & _ & _ & Hcalls)]);
        rewrite Hcalls in Hcall; [done|].
      apply in_map_iff in Hcall as (x & Hx & Hwork). apply in_map_iff.
      exists x. split; [done|].
      apply list_elem_of_In. apply list_elem_of_In in Hwork.
      by apply (subseteq_take (S j * 10)).
    + destruct (out (updatePages w (pagesToUpdate ops) idx)); simpl in Hin;
        repeat (destruct Hin as [Hin|Hin]; [discriminate Hin|]); destruct Hin.
Qed.

(** C8. In every run the calls to the outside follow the stages in
    order: index, issues, labels, tag options, creates, updates.  A run
    that issues any create or update got there through every stage: both
    listers and the label request returned, the tag options sent are
    those made from the fetched labels and the store accepted them, and
    the writes are those of the plan made from the index and the issues;
    nothing of an earlier stage follows a write.  When an update is
    issued, [createPages] has returned: every planned create was issued
    before it, all of them succeeded, and no create follows.  A run that
    returns has issued exactly the planned creates and then the planned
    updates. *)
Theorem C8_stage_order (fuel : nat) (w : World) :
  inOrder (emitted (run (main fuel w))) /\
  (forall pre e post,
      emitted (run (main fuel w)) = pre ++ e :: post ->
      isWrite e = true ->
      (exists options,
          In (NotionDatabasesUpdate options) pre /\
          databases_update w options = Resolves tt) /\
      Forall (fun e' => isCall e' = true -> stage e <= stage e') post) /\
  (forall pre pageId properties post,
      emitted (run (main fuel w))
      = pre ++ NotionPagesUpdate pageId properties :: post ->
      forall created, ~ In (NotionPagesCreate created) post) /\
  (forall e,
      In e (emitted (run (main fuel w))) -> isWrite e = true ->
      exists currentIssues issues labels,
        out (run (getIssuesFromNotionDatabase fuel w)) = Returned currentIssues /\
        out (getGitLabIssuesForRepository fuel w (storeIssues currentIssues ∅))
        = Returned issues /\
        gitlab_labels w = Resolves labels /\
        databases_update w (multiSelectOptions availableColors labels)
        = Resolves tt /\
        emitted (run (main fuel w)) = runTrace fuel w currentIssues issues labels /\
        (forall pre pageId properties post,
            emitted (run (main fuel w))
            = pre ++ NotionPagesUpdate pageId properties :: post ->
            out (createPages w (pagesToCreate (planned currentIssues issues))
                   (storeIssues currentIssues ∅)) = Returned tt /\
            forallb (fun x => resolved (createAnswer w x))
                    (pagesToCreate (planned currentIssues issues)) = true /\
            List.filter isCreate pre
            = map createRequest (pagesToCreate (planned currentIssues issues)) /\
            In (NotionPagesUpdate pageId properties)
               (map updateRequest (pagesToUpdate (planned currentIssues issues))))) /\
  (out (run (main fuel w)) = Returned tt ->
   exists currentIssues issues labels,
     out (run (getIssuesFromNotionDatabase fuel w)) = Returned currentIssues /\
     out (getGitLabIssuesForRepository fuel w (storeIssues currentIssues ∅))
     = Returned issues /\
     gitlab_labels w = Resolves labels /\
     databases_update w (multiSelectOptions availableColors labels) = Resolves tt /\
     emitted (run (main fuel w)) = runTrace fuel w currentIssues issues labels /\
     forallb (fun x => resolved (createAnswer w x))
             (pagesToCreate (planned currentIssues issues)) = true /\
     forallb (fun x => resolved (updateAnswer w x))
             (pagesToUpdate (planned currentIssues issues)) = true /\
     List.filter isWrite (emitted (run (main fuel w)))
     = map createRequest (pagesToCreate (planned currentIssues issues))
       ++ map updateRequest (pagesToUpdate (planned currentIssues issues))).
Proof.
  destruct (main_staged fuel w ∅) as [Horder _]. fold (run (main fuel w)) in Horder.
  assert (forall pre pageId properties post,
      emitted (run (main fuel w))
      = pre ++ NotionPagesUpdate pageId properties :: post ->
      forall created, ~ In (NotionPagesCreate created) post) as Hafter.
  { intros pre pageId properties post Htr created Hin.
    assert (Forall (fun e' => isCall e' = true ->
                              stage (NotionPagesUpdate pageId properties) <= stage e')
                   post)
      as Hpost by (apply (inOrder_split pre); [by rewrite <- Htr|done]).
    rewrite Forall_forall in Hpost. apply list_elem_of_In in Hin.
    specialize (Hpost _ Hin eq_refl). simpl in Hpost. lia. }
  split; [done|]. split; [|split; [done|split]].
  - intros pre e post Htr Hwrite.
    pose proof (isWrite_stage e Hwrite) as [Hcall Hstage].
    assert (Forall (fun e' => isCall e' = true -> stage e <= stage e') post)
      as Hpost by (apply (inOrder_split pre); [by rewrite <- Htr|done]).
    split; [|done].
    destruct (main_taxonomy_first fuel w e) as (options & Hin & Hdone);
      [rewrite Htr; apply in_elt|done|].
    exists options. split; [|done].
    rewrite Htr in Hin. apply in_app_or in Hin as [Hin|[Hin|Hin]]; [done| |].
    + subst e. done.
    + rewrite Forall_forall in Hpost. apply list_elem_of_In in Hin.
      specialize (Hpost _ Hin eq_refl). simpl in Hpost. lia.
  - intros e He Hwrite.
    destruct (main_reaches_writes fuel w e He Hwrite)
      as (currentIssues & issues & labels & Hlister & Hissues & Hlabels
          & Htaxonomy & Htrace).
    exists currentIssues, issues, labels. repeat (split; [done|]).
    intros pre pageId properties post Hsplit.
    destruct (runTrace_front fuel w currentIssues issues labels Hlister)
      as (front & Hfront & Hnocreate & Hnoupdate).
    assert (In (NotionPagesUpdate pageId properties)
               (writingTrace w (planned currentIssues issues)
                  (storeIssues currentIssues ∅))) as Hin.
    { assert (In (NotionPagesUpdate pageId properties)
                 (emitted (run (main fuel w)))) as Hin
        by (rewrite Hsplit; apply in_elt).
      rewrite Htrace, Hfront in Hin. apply in_app_or in Hin as [Hin|Hin]; [|done].
      by apply Hnoupdate in Hin. }
    destruct (writing_update _ _ _ _ _ Hin) as (Hcreate & Hcreated & Hcreates & Hplanned).
    repeat (split; [done|]). split; [|done].
    assert (List.filter isCreate (emitted (run (main fuel w)))
            = map createRequest (pagesToCreate (planned currentIssues issues)))
      as Hall by (by rewrite Htrace, Hfront, List.filter_app, Hnocreate, Hcreates).
    rewrite Hsplit, List.filter_app in Hall. cbn [List.filter isCreate] in Hall.
    assert (List.filter isCreate post = []) as Hpost.
    { apply filter_none. intros x Hx. destruct x; try done.
      by apply (Hafter _ _ _ _ Hsplit) in Hx. }
    by rewrite Hpost, app_nil_r in Hall.
  - intros Hout.
    destruct (main_returned_trace fuel w Hout)
      as (currentIssues & issues & labels & Hlister & Hissues & Hlabels
          & Htaxonomy & Htrace).
    exists currentIssues, issues, labels. repeat (split; [done|]).
    unfold run, main in Hout.
    apply bind_returned_inv in Hout as ([] & Hset & Hsync & E0).
    pose proof (setInitial_run fuel w currentIssues Hlister) as Hstart.
    unfold run in Hstart. rewrite Hstart in Hsync, E0.
    cbn [idMap emitted] in Hsync, E0.
    destruct (sync_returned _ _ _ Hsync)
      as (issues' & labels' & Hissues' & _ & _ & Hcreated & Hupdated & Hwrites & _).
    unfold run in Hissues. rewrite Hissues in Hissues'. injection Hissues' as <-.
    unfold planned. repeat (split; [done|]).
    unfold run, main. rewrite E0, List.filter_app, Hwrites.
    assert (List.filter isWrite (emitted (getIssuesFromNotionDatabase fuel w ∅)) = [])
      as ->; [|done].
    pose proof (phase_no_writes 1 _ ∅ (setInitial_phase fuel w)) as Hquiet.
    rewrite Hstart in Hquiet. apply Hquiet. lia.
Qed.

Lemma C8_stage_order_witness :
  exists options,
    In (NotionDatabasesUpdate options)
       (take 10 (emitted (run (main 1 smallWorld)))) /\
    databases_update smallWorld options = Resolves tt.
Proof.
  destruct (C8_stage_order 1 smallWorld) as (_ & Hwrites & _).
  destruct (Hwrites (take 10 (emitted (run (main 1 smallWorld))))
                    (NotionPagesCreate
                       (getPropertiesFromIssue (sampleIssue "Jan Strich" 2)))
                    (drop 11 (emitted (run (main 1 smallWorld)))))
    as (Htaxonomy & _).
  - vm_compute. reflexivity.
  - reflexivity.
  - exact Htaxonomy.
Defined.

End RunOrder.
